(** * Feedback-collection flow: session store and webhook dispatcher

    A shallow embedding of [services/conversationManager.js] (the
    [ConversationStateManager] singleton) and of the webhook processor
    ([processWebhookPayload], [handleIncomingMessage] and the three step
    handlers), followed by the properties of the session life cycle.

    Conventions of the embedding.
    - A JavaScript string is a [string] whose characters are the code
      units U+0000..U+00FF.
    - A [Date] is its millisecond time stamp, an integer; subtracting two
      dates subtracts the time stamps.
    - The manager's [Map] is a [gmap] from the user's phone number to the
      session object.  A session object is reachable only through the map
      entry of its user, so a mutation in place ([session.lastActivity =
      ...], [Object.assign(session, ...)]) is a write to that entry.
    - The code runs in a world that holds the map, the clock, the console
      and the messages handed to the sender.  [new Date()] reads the clock;
      the clock does not move while one synchronous call runs, it is moved
      between calls with [at_time].
    - A function that can throw returns [Throw e]; [null] is [None].
    - Progress lines written with [console.log] are left out; the lines
      written with [console.error] and the completion record are kept. *)

From Stdlib Require Import ZArith Ascii String List Lia.
From stdpp Require Import base option list gmap fin_maps strings.

Open Scope string_scope.
Open Scope Z_scope.
Open Scope list_scope.

(** ** JavaScript strings *)

Module JsString.

(** [WhiteSpace] and [LineTerminator] code units below U+0100: TAB, LF,
    VT, FF, CR, SPACE and NO-BREAK SPACE. *)
Definition isWhiteSpace (c : ascii) : bool :=
  let n := nat_of_ascii c in
  ((9 <=? n) && (n <=? 13) || (n =? 32) || (n =? 160))%nat.

Fixpoint trimStart (s : string) : string :=
  match s with
  | EmptyString => EmptyString
  | String c rest => if isWhiteSpace c then trimStart rest else s
  end.

Fixpoint trimEnd (s : string) : string :=
  match s with
  | EmptyString => EmptyString
  | String c rest =>
      match trimEnd rest with
      | EmptyString => if isWhiteSpace c then EmptyString else String c EmptyString
      | rest' => String c rest'
      end
  end.

(** [String.prototype.trim] *)
Definition trim (s : string) : string := trimEnd (trimStart s).

(** Lower case of one code unit: A-Z, and the capital letters
    U+00C0..U+00DE but the multiplication sign U+00D7, move up by 32. *)
Definition lowerChar (c : ascii) : ascii :=
  let n := nat_of_ascii c in
  if ((65 <=? n) && (n <=? 90)
      || (192 <=? n) && (n <=? 222) && negb (n =? 215))%nat
  then ascii_of_nat (n + 32) else c.

(** [String.prototype.toLowerCase] *)
Fixpoint toLowerCase (s : string) : string :=
  match s with
  | EmptyString => EmptyString
  | String c rest => String (lowerChar c) (toLowerCase rest)
  end.

End JsString.

(** ** Data model *)

(** The session object built by [createSession]. *)
Record Session := mkSession {
  step : Z;
  name : string;
  feedback : string;
  profileImageUrl : string;
  createdAt : Z;
  lastActivity : Z
}.

#[global] Instance Session_eq_dec : EqDecision Session.
Proof. solve_decision. Defined.

(** The [updates] argument of [updateSession]: an object literal that
    carries some of the four data properties of a session. *)
Module Updates.
Record t := mk {
  step : option Z;
  name : option string;
  feedback : option string;
  profileImageUrl : option string
}.
End Updates.

(** The object printed by [logCompletedFeedback]; [sessionDuration] is
    the number in the text [`${durationMinutes} minutes`]. *)
Module FeedbackData.
Record t := mk {
  timestamp : Z;
  userPhone : string;
  name : string;
  feedback : string;
  profileImageUrl : string;
  sessionDuration : Z;
  completedAt : Z
}.
End FeedbackData.

Inductive Error :=
| TypeError (what : string)
| SendError.

#[global] Instance Error_eq_dec : EqDecision Error.
Proof. solve_decision. Defined.

(** What reaches the console. *)
Inductive ConsoleLine :=
| ErrUpdateMissing (userPhone : string)
| ErrCompleteMissing (userPhone : string)
| ErrHandlingMessage (error : Error)
| ErrSendingErrorMessage (sendError : Error)
| LogFeedbackCompleted (feedbackData : FeedbackData.t).

(** Modelled from the spec: the message templates of
    [utils/messageTemplates], which is not part of the sources.  The
    dispatcher only selects the template key and its argument;
    [getTemplate key arg] is that selection. *)
Inductive Template :=
| greeting
| needText
| nameReceived (name : string)
| feedbackReceived
| needImage
| completed (name : string)
| systemError.

#[global] Instance Template_eq_dec : EqDecision Template.
Proof. solve_decision. Defined.

(** The world one call runs in.  [deliveries] tells how the coming calls
    of the sender end: [false] is a rejected send, and once the list is
    used up every send succeeds. *)
Record World := mkWorld {
  sessions : gmap string Session;
  clock : Z;
  console : list ConsoleLine;
  outbox : list (string * Template);
  deliveries : list bool
}.

Definition set_sessions (f : gmap string Session → gmap string Session) (w : World) : World :=
  mkWorld (f (sessions w)) (clock w) (console w) (outbox w) (deliveries w).

Definition at_time (now : Z) (w : World) : World :=
  mkWorld (sessions w) now (console w) (outbox w) (deliveries w).

Definition with_deliveries (net : list bool) (w : World) : World :=
  mkWorld (sessions w) (clock w) (console w) (outbox w) net.

(** The world after the module is loaded: the constructor leaves the map
    empty. *)
Definition initial (now : Z) (net : list bool) : World :=
  mkWorld ∅ now [] [] net.

(** ** Computations that read and write the world, and may throw *)

Inductive Result (A : Type) :=
| Ok (a : A)
| Throw (e : Error).
Arguments Ok {A} a.
Arguments Throw {A} e.

Definition M (A : Type) : Type := World → Result A * World.

#[global] Instance M_ret : MRet M := λ A a w, (Ok a, w).
#[global] Instance M_bind : MBind M := λ A B f m w,
  match m w with
  | (Ok a, w') => f a w'
  | (Throw e, w') => (Throw e, w')
  end.

Definition throw {A} (e : Error) : M A := λ w, (Throw e, w).

(** [try { body } catch (e) { handler e }] *)
Definition try_catch {A} (body : M A) (handler : Error → M A) : M A := λ w,
  match body w with
  | (Ok a, w') => (Ok a, w')
  | (Throw e, w') => handler e w'
  end.

(** [for (const x of xs) { body x }] *)
Fixpoint for_of {A} (xs : list A) (body : A → M unit) : M unit :=
  match xs with
  | [] => mret tt
  | x :: rest => body x ;; for_of rest body
  end.

(** [new Date()] *)
Definition newDate : M Z := λ w, (Ok (clock w), w).

Definition sessions_get (userPhone : string) : M (option Session) :=
  λ w, (Ok (sessions w !! userPhone), w).

Definition sessions_set (userPhone : string) (session : Session) : M unit :=
  λ w, (Ok tt, set_sessions (insert userPhone session) w).

Definition sessions_delete (userPhone : string) : M unit :=
  λ w, (Ok tt, set_sessions (delete userPhone) w).

Definition sessions_entries : M (list (string * Session)) :=
  λ w, (Ok (map_to_list (sessions w)), w).

Definition console_write (line : ConsoleLine) : M unit :=
  λ w, (Ok tt, mkWorld (sessions w) (clock w) (console w ++ [line]) (outbox w) (deliveries w)).

(** Modelled from the spec: the external "send text to user" operation
    of [./whatsappService], which is not part of the sources.  The
    request is recorded in [outbox]; the send is rejected when the next
    entry of [deliveries] says so. *)
Definition sendTextMessage (userPhone : string) (response : Template) : M unit :=
  λ w,
    let sent := outbox w ++ [(userPhone, response)] in
    match deliveries w with
    | false :: net => (Throw SendError, mkWorld (sessions w) (clock w) (console w) sent net)
    | true :: net => (Ok tt, mkWorld (sessions w) (clock w) (console w) sent net)
    | [] => (Ok tt, mkWorld (sessions w) (clock w) (console w) sent [])
    end.

Definition getTemplate (t : Template) : Template := t.

(** ** services/conversationManager.js *)

(** [this.sessionTimeout], 12 hours in milliseconds *)
Definition sessionTimeout : Z := 12 * 60 * 60 * 1000.

(** [this.cleanupInterval], 1 hour in milliseconds *)
Definition cleanupInterval : Z := 60 * 60 * 1000.

Definition createSession (userPhone : string) : M Session :=
  created ← newDate;
  active ← newDate;
  let session := mkSession 1 "" "" "" created active in
  sessions_set userPhone session ;;
  mret session.

Definition isSessionExpired (session : Session) : M bool :=
  now ← newDate;
  let timeDiff := now - lastActivity session in
  mret (bool_decide (timeDiff > sessionTimeout)).

Definition set_lastActivity (now : Z) (s : Session) : Session :=
  mkSession (step s) (name s) (feedback s) (profileImageUrl s) (createdAt s) now.

Definition getSession (userPhone : string) : M Session :=
  found ← sessions_get userPhone;
  session ← match found with
            | Some s =>
                expired ← isSessionExpired s;
                if expired : bool
                then sessions_delete userPhone ;; mret None
                else mret (Some s)
            | None => mret None
            end;
  match session with
  | None => createSession userPhone
  | Some s =>
      now ← newDate;
      let s' := set_lastActivity now s in
      sessions_set userPhone s' ;;
      mret s'
  end.

(** [Object.assign(session, updates, { lastActivity: now })] *)
Definition assign (session : Session) (updates : Updates.t) (now : Z) : Session :=
  mkSession
    (default (step session) (Updates.step updates))
    (default (name session) (Updates.name updates))
    (default (feedback session) (Updates.feedback updates))
    (default (profileImageUrl session) (Updates.profileImageUrl updates))
    (createdAt session)
    now.

Definition updateSession (userPhone : string) (updates : Updates.t) : M Session :=
  found ← sessions_get userPhone;
  match found with
  | None =>
      console_write (ErrUpdateMissing userPhone) ;;
      createSession userPhone
  | Some session =>
      now ← newDate;
      let session' := assign session updates now in
      sessions_set userPhone session' ;;
      mret session'
  end.

Definition advanceStep (userPhone : string) : M Session :=
  session ← getSession userPhone;
  let nextStep := Z.min (step session + 1) 4 in
  updateSession userPhone (Updates.mk (Some nextStep) None None None).

(** [Math.round(num / den)] for integers and [den > 0]: the quotient
    rounded to the nearest integer, a half going up. *)
Definition Math_round_div (num den : Z) : Z := (2 * num + den) / (2 * den).

Definition logCompletedFeedback (userPhone : string) (session : Session) : M unit :=
  now ← newDate;
  let sessionDuration := now - createdAt session in
  let durationMinutes := Math_round_div sessionDuration (1000 * 60) in
  stamp ← newDate;
  done_at ← newDate;
  let feedbackData :=
    FeedbackData.mk stamp userPhone (name session) (feedback session)
      (profileImageUrl session) durationMinutes done_at in
  console_write (LogFeedbackCompleted feedbackData).

Definition completeSession (userPhone : string) : M (option Session) :=
  found ← sessions_get userPhone;
  match found with
  | None =>
      console_write (ErrCompleteMissing userPhone) ;;
      mret None
  | Some session =>
      logCompletedFeedback userPhone session ;;
      sessions_delete userPhone ;;
      mret (Some session)
  end.

(** The body of the [for ... of this.sessions.entries()] loop.  The loop
    visits every entry of the map once: an entry is deleted only while it
    is the one being visited. *)
Fixpoint cleanup_loop (entries : list (string * Session)) (cleanedCount : Z) : M Z :=
  match entries with
  | [] => mret cleanedCount
  | (userPhone, session) :: rest =>
      expired ← isSessionExpired session;
      if expired : bool
      then sessions_delete userPhone ;; cleanup_loop rest (cleanedCount + 1)
      else cleanup_loop rest cleanedCount
  end.

Definition cleanupExpiredSessions : M Z :=
  _ ← newDate;
  entries ← sessions_entries;
  cleanup_loop entries 0.

Definition resetSession (userPhone : string) : M Session :=
  updateSession userPhone (Updates.mk (Some 1) (Some "") (Some "") (Some "")).

(** ** The webhook processor *)

(** An inbound message: [message.text] is [{ body }] and [message.image]
    is [{ id }]; either can be missing whatever [message.type] says. *)
Module Msg.
Record text := mkText { body : string }.
Record image := mkImage { id : string }.
End Msg.

Record Message := mkMessage {
  from : string;
  type : string;
  text : option Msg.text;
  image : option Msg.image
}.

Module Status.
Record t := mk {
  id : string;
  recipient_id : string;
  status : string;
  timestamp : string
}.
End Status.

(** The webhook payload.  A property that the JSON object may not have
    is an [option]; [None] is [undefined]. *)
Record Value := mkValue {
  messages : option (list Message);
  statuses : option (list Status.t)
}.

Record Change := mkChange {
  field : option string;
  value : option Value
}.

Record Entry := mkEntry {
  changes : option (list Change)
}.

Record Payload := mkPayload {
  object : option string;
  entry : option (list Entry)
}.

(** [for (const x of xs)] where [xs] may be [undefined] *)
Definition iterate {A} (what : string) (xs : option (list A)) : M (list A) :=
  match xs with
  | Some l => mret l
  | None => throw (TypeError (what ++ " is not iterable")%string)
  end.

(** Reading a property of [change.value] *)
Definition property_of {A} (what : string) (o : option A) : M A :=
  match o with
  | Some a => mret a
  | None => throw (TypeError ("Cannot read properties of undefined (reading '" ++ what ++ "')")%string)
  end.

(** It only prints the status. *)
Definition handleMessageStatus (status : Status.t) : M unit := mret tt.

(** [message.type !== 'text' || !message.text] fails exactly when
    [text_of message] is the text object, and likewise for the image. *)
Definition text_of (message : Message) : option Msg.text :=
  if bool_decide (type message = "text") then text message else None.

Definition image_of (message : Message) : option Msg.image :=
  if bool_decide (type message = "image") then image message else None.

Definition handleNameCollection (message : Message) (userPhone : string) (session : Session) : M unit :=
  match text_of message with
  | None =>
      let response := getTemplate needText in
      sendTextMessage userPhone response
  | Some t =>
      let name := JsString.trim (Msg.body t) in
      updateSession userPhone (Updates.mk None (Some name) None None) ;;
      advanceStep userPhone ;;
      let response := getTemplate (nameReceived name) in
      sendTextMessage userPhone response
  end.

Definition handleFeedbackCollection (message : Message) (userPhone : string) (session : Session) : M unit :=
  match text_of message with
  | None =>
      let response := getTemplate needText in
      sendTextMessage userPhone response
  | Some t =>
      let feedback := JsString.trim (Msg.body t) in
      updateSession userPhone (Updates.mk None None (Some feedback) None) ;;
      advanceStep userPhone ;;
      let response := getTemplate feedbackReceived in
      sendTextMessage userPhone response
  end.

Definition handleImageCollection (message : Message) (userPhone : string) (session : Session) : M unit :=
  match image_of message with
  | None =>
      let response := getTemplate needImage in
      sendTextMessage userPhone response
  | Some i =>
      let imageUrl := Msg.id i in
      updateSession userPhone (Updates.mk None None None (Some imageUrl)) ;;
      completedSession ← completeSession userPhone;
      match completedSession with
      | None => throw (TypeError "Cannot read properties of null (reading 'name')")
      | Some c =>
          let response := getTemplate (completed (name c)) in
          sendTextMessage userPhone response
      end
  end.

(** The test of the trigger: [message.type === 'text' && message.text]
    and then [message.text.body.toLowerCase().trim() === 'hi']. *)
Definition is_trigger (message : Message) : bool :=
  match text_of message with
  | Some t =>
      let messageText := JsString.trim (JsString.toLowerCase (Msg.body t)) in
      bool_decide (messageText = "hi")
  | None => false
  end.

(** The [try] block of [handleIncomingMessage] *)
Definition handleIncomingMessage_body (message : Message) : M unit :=
  let userPhone := from message in
  if is_trigger message then
    createSession userPhone ;;
    let response := getTemplate greeting in
    sendTextMessage userPhone response
  else
    session ← getSession userPhone;
    match step session with
    | 1 => handleNameCollection message userPhone session
    | 2 => handleFeedbackCollection message userPhone session
    | 3 => handleImageCollection message userPhone session
    | _ =>
        resetSession userPhone ;;
        let response := getTemplate greeting in
        sendTextMessage userPhone response
    end.

Definition handleIncomingMessage (message : Message) : M unit :=
  try_catch (handleIncomingMessage_body message)
    (λ error,
       console_write (ErrHandlingMessage error) ;;
       try_catch
         (let errorResponse := getTemplate systemError in
          sendTextMessage (from message) errorResponse)
         (λ sendError, console_write (ErrSendingErrorMessage sendError)) ;;
       throw error).

Definition processChange (change : Change) : M unit :=
  (if bool_decide (field change = Some "messages") then
     v ← property_of "messages" (value change);
     match messages v with
     | Some ms => for_of ms handleIncomingMessage
     | None => mret tt
     end
   else mret tt) ;;
  (if bool_decide (field change = Some "messages") then
     v ← property_of "statuses" (value change);
     match statuses v with
     | Some ss => for_of ss handleMessageStatus
     | None => mret tt
     end
   else mret tt).

Definition processWebhookPayload (payload : Payload) : M unit :=
  if bool_decide (object payload ≠ Some "whatsapp_business_account") then
    mret tt
  else
    entries ← iterate "payload.entry" (entry payload);
    for_of entries (λ entry,
      changes ← iterate "entry.changes" (changes entry);
      for_of changes processChange).

(** [simulateWebhook] and [simulateImageWebhook] build these payloads. *)
Definition textPayload (testMessage phoneNumber : string) : Payload :=
  mkPayload (Some "whatsapp_business_account")
    (Some [mkEntry (Some [mkChange (Some "messages")
       (Some (mkValue
          (Some [mkMessage phoneNumber "text" (Some (Msg.mkText testMessage)) None])
          None))])]).

Definition imagePayload (phoneNumber imageId : string) : Payload :=
  mkPayload (Some "whatsapp_business_account")
    (Some [mkEntry (Some [mkChange (Some "messages")
       (Some (mkValue
          (Some [mkMessage phoneNumber "image" None (Some (Msg.mkImage imageId))])
          None))])]).

(** The world a computation leaves *)
Definition world_after {A} (m : M A) (w : World) : World := (m w).2.

(** ** The rest of the manager and of the processor *)

(** The object returned by [getSessionStats].  [sessionsByStep] is the
    object whose property names are the steps met. *)
Module Stats.
Record t := mk {
  totalActiveSessions : Z;
  sessionsByStep : gmap Z Z;
  timestamp : Z
}.
End Stats.

(** The body of the [for ... of this.sessions.values()] loop:
    [sessionsByStep[step] = (sessionsByStep[step] || 0) + 1]. *)
Fixpoint count_steps (values : list Session) (sessionsByStep : gmap Z Z) : gmap Z Z :=
  match values with
  | [] => sessionsByStep
  | session :: rest =>
      let step := step session in
      count_steps rest (<[step := default 0 (sessionsByStep !! step) + 1]> sessionsByStep)
  end.

Definition getSessionStats : M Stats.t :=
  λ w,
    let totalSessions := Z.of_nat (size (sessions w)) in
    let sessionsByStep := count_steps (map_to_list (sessions w)).*2 ∅ in
    (Ok (Stats.mk totalSessions sessionsByStep (clock w)), w).

(** The objects returned by [simulateWebhook] and [simulateImageWebhook]. *)
Module TextSimulation.
Record t := mk {
  success : bool;
  message : string;
  testMessage : string;
  phoneNumber : string;
  timestamp : Z
}.
End TextSimulation.

Module ImageSimulation.
Record t := mk {
  success : bool;
  message : string;
  phoneNumber : string;
  imageId : string;
  timestamp : Z
}.
End ImageSimulation.

Definition simulateWebhook (testMessage phoneNumber : string) : M TextSimulation.t :=
  let mockPayload := textPayload testMessage phoneNumber in
  processWebhookPayload mockPayload ;;
  now ← newDate;
  mret (TextSimulation.mk true "Feedback collection test completed"
          testMessage phoneNumber now).

(** [imageId] is [None] when the caller leaves the argument out; the
    default is ['test-image-123']. *)
Definition simulateImageWebhook (phoneNumber : string) (imageId : option string)
  : M ImageSimulation.t :=
  let imageId := default "test-image-123" imageId in
  let mockPayload := imagePayload phoneNumber imageId in
  processWebhookPayload mockPayload ;;
  now ← newDate;
  mret (ImageSimulation.mk true "Image webhook test completed"
          phoneNumber imageId now).

(** * Vocabulary of the properties *)

(** The session that [createSession] builds when the clock shows [now]. *)
Definition fresh (now : Z) : Session := mkSession 1 "" "" "" now now.

Definition expired_at (now : Z) (session : Session) : bool :=
  bool_decide (now - lastActivity session > sessionTimeout).

(** The clock moves to each of [times] in turn, and [advanceStep] runs
    there. *)
Definition advances (userPhone : string) (times : list Z) (w : World) : World :=
  foldl (λ w t, world_after (advanceStep userPhone) (at_time t w)) w times.

(** No gap between two calls is longer than the time-out. *)
Fixpoint within_timeout (last : Z) (times : list Z) : Prop :=
  match times with
  | [] => True
  | t :: rest => t - last ≤ sessionTimeout ∧ within_timeout t rest
  end.

(** Whether the next send goes through, and the world it leaves. *)
Definition next_send_ok (w : World) : bool :=
  match deliveries w with
  | false :: _ => false
  | _ => true
  end.

Definition sent (userPhone : string) (response : Template) (w : World) : World :=
  mkWorld (sessions w) (clock w) (console w) (outbox w ++ [(userPhone, response)])
    (tail (deliveries w)).

(** The session a handler works on: what [getSession] returns when the
    map holds [found] for the user. *)
Definition current (now : Z) (found : option Session) : Session :=
  match found with
  | Some stored => if expired_at now stored then fresh now else set_lastActivity now stored
  | None => fresh now
  end.

(** One turn of the flow as a transition: from the clock, the message and
    the user's entry of the map to the new entry ([None] once the flow is
    completed), the reply and what the turn prints.  It is a summary of
    [handleIncomingMessage_body], proved equal to it in
    [handleIncomingMessage_body_run]. *)
Definition transition (now : Z) (message : Message) (found : option Session)
  : option Session * Template * list ConsoleLine :=
  if is_trigger message then (Some (fresh now), greeting, [])
  else
    let cur := current now found in
    match step cur with
    | 1 =>
        match text_of message with
        | None => (Some cur, needText, [])
        | Some t =>
            let name := JsString.trim (Msg.body t) in
            (Some (mkSession 2 name (feedback cur) (profileImageUrl cur) (createdAt cur) now),
             nameReceived name, [])
        end
    | 2 =>
        match text_of message with
        | None => (Some cur, needText, [])
        | Some t =>
            let feedback := JsString.trim (Msg.body t) in
            (Some (mkSession 3 (name cur) feedback (profileImageUrl cur) (createdAt cur) now),
             feedbackReceived, [])
        end
    | 3 =>
        match image_of message with
        | None => (Some cur, needImage, [])
        | Some i =>
            (None, completed (name cur),
             [LogFeedbackCompleted
                (FeedbackData.mk now (from message) (name cur) (feedback cur) (Msg.id i)
                   (Math_round_div (now - createdAt cur) (1000 * 60)) now)])
        end
    | _ => (Some (mkSession 1 "" "" "" (createdAt cur) now), greeting, [])
    end.

Definition store_put (userPhone : string) (o : option Session)
    (m : gmap string Session) : gmap string Session :=
  match o with
  | Some s => <[userPhone := s]> m
  | None => delete userPhone m
  end.

(** The world when the reply of a turn is about to be sent. *)
Definition before_reply (message : Message) (w : World) : World :=
  let '(entry, _, printed) := transition (clock w) message (sessions w !! from message) in
  mkWorld (store_put (from message) entry (sessions w)) (clock w)
    (console w ++ printed) (outbox w) (deliveries w).

Definition reply_of (message : Message) (w : World) : Template :=
  (transition (clock w) message (sessions w !! from message)).1.2.

(** What the [catch] block of [handleIncomingMessage] leaves. *)
Definition recovered (message : Message) (error : Error) (w : World) : World :=
  let w1 := mkWorld (sessions w) (clock w) (console w ++ [ErrHandlingMessage error])
              (outbox w) (deliveries w) in
  let w2 := sent (from message) systemError w1 in
  if next_send_ok w1 then w2
  else mkWorld (sessions w2) (clock w2) (console w2 ++ [ErrSendingErrorMessage SendError])
         (outbox w2) (deliveries w2).

(** A session that the sweep removes: last active more than 12 hours
    before [now]. *)
Definition is_old (now : Z) (e : string * Session) : Prop := expired_at now e.2 = true.

#[global] Instance is_old_dec now e : Decision (is_old now e).
Proof. unfold is_old. apply _. Defined.

(** The map after the sweep has gone through [entries]. *)
Definition swept (now : Z) (m : gmap string Session) (entries : list (string * Session))
  : gmap string Session :=
  foldl (λ m e, if expired_at now e.2 then delete e.1 m else m) m entries.

(** The fields below the step of a session are filled. *)
Definition filled (s : Session) : Prop :=
  (step s > 1 → name s ≠ "") ∧ (step s > 2 → feedback s ≠ "").

(** A text that is more than white space. *)
Definition not_blank (message : Message) : Prop :=
  ∀ t, text_of message = Some t → JsString.trim (Msg.body t) ≠ "".

(** The worlds that sequences of handled messages lead to from the start
    of the process, the messages taken from [allowed]; before each
    message the clock and the behaviour of the sender may be anything. *)
Inductive reachable (allowed : Message → Prop) : World → Prop :=
| reachable_initial now net : reachable allowed (initial now net)
| reachable_turn w now net message :
    reachable allowed w →
    allowed message →
    reachable allowed
      (world_after (handleIncomingMessage message) (with_deliveries net (at_time now w))).

(** No entry and no change of the payload carries the recognised
    [field]; a list that is missing has no element. *)
Definition lacks_recognized_field (payload : Payload) : Prop :=
  ∀ e, e ∈ default [] (entry payload) →
  ∀ c, c ∈ default [] (changes e) → field c ≠ Some "messages".

(** The messages of a change, of an entry and of a payload, in the order
    of the document; a change with another [field] has none. *)
Definition change_messages (c : Change) : list Message :=
  if bool_decide (field c = Some "messages")
  then default [] (value c ≫= messages)
  else [].

Definition entry_messages (e : Entry) : list Message :=
  concat (change_messages <$> default [] (changes e)).

Definition payload_messages (payload : Payload) : list Message :=
  concat (entry_messages <$> default [] (entry payload)).

(** Every list the processor iterates is there, and a change with the
    [field] "messages" has its [value]. *)
Definition complete_change (c : Change) : Prop :=
  field c = Some "messages" → is_Some (value c).

Definition complete_payload (payload : Payload) : Prop :=
  ∃ entries, entry payload = Some entries
    ∧ Forall (λ e, ∃ cs, changes e = Some cs ∧ Forall complete_change cs) entries.

(** The worlds that the turns for [messages] lead through, one after the
    other. *)
Definition turns (messages : list Message) (w : World) : World :=
  foldl (λ w message, world_after (handleIncomingMessage message) w) w messages.

(** The sum of the counts of [sessionsByStep]. *)
Definition total_of (sessionsByStep : gmap Z Z) : Z :=
  map_fold (λ _ n acc, n + acc) 0 sessionsByStep.

(** The sessions of the map that are at step [k]. *)
Definition at_step (k : Z) (e : string * Session) : Prop := step e.2 = k.

#[global] Instance at_step_dec k e : Decision (at_step k e).
Proof. unfold at_step. apply _. Defined.

(** The worlds reached from the start of the process by turns of the
    dispatcher and by sweeps, with a clock that never goes back. *)
Inductive forward : World → Prop :=
| forward_initial now net : forward (initial now net)
| forward_turn w now net message :
    forward w → clock w ≤ now →
    forward (world_after (handleIncomingMessage message)
               (with_deliveries net (at_time now w)))
| forward_sweep w now :
    forward w → clock w ≤ now →
    forward (world_after cleanupExpiredSessions (at_time now w)).

(** The time stamps of a session are in order and not after [now]. *)
Definition in_order (now : Z) (s : Session) : Prop :=
  createdAt s ≤ lastActivity s ≤ now.

(** A completion record whose minutes are not negative; any other line. *)
Definition sound_line (line : ConsoleLine) : Prop :=
  match line with
  | LogFeedbackCompleted feedbackData => 0 ≤ FeedbackData.sessionDuration feedbackData
  | _ => True
  end.

(** A string of white space only. *)
Fixpoint all_white (s : string) : bool :=
  match s with
  | EmptyString => true
  | String c rest => JsString.isWhiteSpace c && all_white rest
  end.

(** A text message from [userPhone]. *)
Definition text_message (userPhone body : string) : Message :=
  mkMessage userPhone "text" (Some (Msg.mkText body)) None.

Definition image_message (userPhone imageId : string) : Message :=
  mkMessage userPhone "image" None (Some (Msg.mkImage imageId)).

(** * Properties *)

(** ** Scenario A of the flow, run on the model *)

Example scenario_A :
  let w1 := world_after (processWebhookPayload (textPayload "hi" "491")) (initial 0 []) in
  let w2 := world_after (processWebhookPayload (textPayload "Alice" "491")) (at_time 1000 w1) in
  let w3 := world_after (processWebhookPayload (textPayload "Great service" "491")) (at_time 2000 w2) in
  let w4 := world_after (processWebhookPayload (imagePayload "491" "img-42")) (at_time 90000 w3) in
  sessions w1 !! "491" = Some (mkSession 1 "" "" "" 0 0)
  ∧ sessions w2 !! "491" = Some (mkSession 2 "Alice" "" "" 0 1000)
  ∧ sessions w3 !! "491" = Some (mkSession 3 "Alice" "Great service" "" 0 2000)
  ∧ sessions w4 !! "491" = None
  ∧ outbox w4 = [("491", greeting); ("491", nameReceived "Alice");
                 ("491", feedbackReceived); ("491", completed "Alice")]
  ∧ console w4 = [LogFeedbackCompleted
                    (FeedbackData.mk 90000 "491" "Alice" "Great service" "img-42" 2 90000)].
Proof. vm_compute. repeat split; reflexivity. Qed.

(** ** How the operations of the store run *)

Ltac run :=
  unfold mbind, mret, M_bind, M_ret, newDate, sessions_get, sessions_set,
    sessions_delete, sessions_entries, console_write, throw; simpl.

Lemma createSession_run userPhone w :
  createSession userPhone w
  = (Ok (fresh (clock w)), set_sessions (insert userPhone (fresh (clock w))) w).
Proof. reflexivity. Qed.

Lemma isSessionExpired_run session w :
  isSessionExpired session w = (Ok (expired_at (clock w) session), w).
Proof. reflexivity. Qed.

Lemma set_sessions_insert_delete userPhone session w :
  set_sessions (insert userPhone session) (set_sessions (delete userPhone) w)
  = set_sessions (insert userPhone session) w.
Proof. unfold set_sessions; simpl. by rewrite insert_delete_eq. Qed.

Lemma getSession_run userPhone w :
  getSession userPhone w =
  let now := clock w in
  let s := match sessions w !! userPhone with
           | Some stored =>
               if expired_at now stored then fresh now else set_lastActivity now stored
           | None => fresh now
           end in
  (Ok s, set_sessions (insert userPhone s) w).
Proof.
  unfold getSession, isSessionExpired, createSession. run.
  destruct (sessions w !! userPhone) as [stored|] eqn:E; simpl; [|done].
  fold (expired_at (clock w) stored).
  destruct (expired_at (clock w) stored); simpl; [|done].
  by rewrite set_sessions_insert_delete.
Qed.

Lemma updateSession_run userPhone updates w :
  updateSession userPhone updates w =
  match sessions w !! userPhone with
  | Some stored =>
      let s := assign stored updates (clock w) in
      (Ok s, set_sessions (insert userPhone s) w)
  | None =>
      createSession userPhone
        (mkWorld (sessions w) (clock w) (console w ++ [ErrUpdateMissing userPhone])
           (outbox w) (deliveries w))
  end.
Proof. unfold updateSession. run. by destruct (sessions w !! userPhone). Qed.

Lemma completeSession_run userPhone w :
  completeSession userPhone w =
  match sessions w !! userPhone with
  | Some stored =>
      let now := clock w in
      let record :=
        FeedbackData.mk now userPhone (name stored) (feedback stored)
          (profileImageUrl stored)
          (Math_round_div (now - createdAt stored) (1000 * 60)) now in
      (Ok (Some stored),
       mkWorld (delete userPhone (sessions w)) now
         (console w ++ [LogFeedbackCompleted record]) (outbox w) (deliveries w))
  | None =>
      (Ok None,
       mkWorld (sessions w) (clock w) (console w ++ [ErrCompleteMissing userPhone])
         (outbox w) (deliveries w))
  end.
Proof.
  unfold completeSession, logCompletedFeedback. run.
  by destruct (sessions w !! userPhone).
Qed.

Lemma advanceStep_run userPhone w :
  advanceStep userPhone w =
  let now := clock w in
  let cur := match sessions w !! userPhone with
             | Some stored =>
                 if expired_at now stored then fresh now else set_lastActivity now stored
             | None => fresh now
             end in
  let s := mkSession (Z.min (step cur + 1) 4) (name cur) (feedback cur)
             (profileImageUrl cur) (createdAt cur) now in
  (Ok s, set_sessions (insert userPhone s) w).
Proof.
  unfold advanceStep. unfold mbind at 1, M_bind at 1.
  rewrite getSession_run. cbv beta iota zeta. rewrite updateSession_run.
  unfold set_sessions; simpl. rewrite lookup_insert_eq. simpl.
  by rewrite insert_insert_eq.
Qed.

Lemma not_expired_now now s : lastActivity s = now → expired_at now s = false.
Proof.
  intros Hnow. unfold expired_at, sessionTimeout.
  apply bool_decide_eq_false. lia.
Qed.

Lemma Math_round_div_nearest num den :
  0 < den →
  let r := Math_round_div num den in
  2 * den * r - den ≤ 2 * num < 2 * den * r + den.
Proof.
  intros Hden r. subst r. unfold Math_round_div.
  pose proof (Z.div_mod (2 * num + den) (2 * den) ltac:(lia)) as Hdm.
  pose proof (Z.mod_pos_bound (2 * num + den) (2 * den) ltac:(lia)) as Hb.
  lia.
Qed.

Lemma advances_le_4 userPhone times : ∀ w stored,
  sessions w !! userPhone = Some stored → step stored ≤ 4 →
  ∃ s, sessions (advances userPhone times w) !! userPhone = Some s ∧ step s ≤ 4.
Proof.
  induction times as [|t times IH]; intros w stored Hs Hle; simpl.
  - eauto.
  - unfold world_after at 1. rewrite advanceStep_run. cbv zeta. simpl.
    eapply IH.
    + unfold set_sessions; simpl. apply lookup_insert_eq.
    + simpl. lia.
Qed.

Lemma advances_stay_4 userPhone times : ∀ w stored,
  sessions w !! userPhone = Some stored → step stored = 4 →
  within_timeout (lastActivity stored) times →
  ∃ s, sessions (advances userPhone times w) !! userPhone = Some s ∧ step s = 4.
Proof.
  induction times as [|t times IH]; intros w stored Hs H4 Hgap; simpl.
  - eauto.
  - destruct Hgap as [Hgap Hrest].
    unfold world_after at 1. rewrite advanceStep_run. cbv zeta. simpl.
    rewrite Hs.
    assert (expired_at t stored = false) as ->
      by (apply bool_decide_eq_false; lia).
    eapply IH.
    + unfold set_sessions; simpl. apply lookup_insert_eq.
    + simpl. rewrite H4. reflexivity.
    + simpl. exact Hrest.
Qed.

(** ** The session store *)

(** C2.  [getSession] never returns an expired session.  When the stored
    session was last active more than 12 hours before the clock, the
    session returned (and stored) has step 1 and empty name, feedback and
    image, and both time stamps at the clock; when it is not expired, the
    session returned has the step, name, feedback, image and [createdAt]
    of the stored one and [lastActivity] at the clock.  In both cases the
    returned session is the one in the map and is not expired. *)
Theorem getSession_never_expired (userPhone : string) (w : World) :
  ∃ s w',
    getSession userPhone w = (Ok s, w')
    ∧ sessions w' = <[userPhone := s]> (sessions w)
    ∧ sessions w' !! userPhone = Some s
    ∧ isSessionExpired s w' = (Ok false, w')
    ∧ (∀ stored, sessions w !! userPhone = Some stored →
         clock w - lastActivity stored > 12 * 60 * 60 * 1000 →
         step s = 1 ∧ name s = "" ∧ feedback s = "" ∧ profileImageUrl s = ""
         ∧ createdAt s = clock w ∧ lastActivity s = clock w)
    ∧ (∀ stored, sessions w !! userPhone = Some stored →
         ¬ clock w - lastActivity stored > 12 * 60 * 60 * 1000 →
         s = mkSession (step stored) (name stored) (feedback stored)
               (profileImageUrl stored) (createdAt stored) (clock w)).
Proof.
  rewrite getSession_run. cbv zeta.
  eexists _, _. split; [reflexivity|].
  split; [reflexivity|].
  split; [apply lookup_insert_eq|].
  split.
  { rewrite isSessionExpired_run. f_equal. f_equal. simpl.
    apply not_expired_now.
    destruct (sessions w !! userPhone) as [stored|]; [|done].
    by destruct (expired_at (clock w) stored). }
  split; intros stored -> Hage.
  - unfold expired_at, sessionTimeout. by rewrite bool_decide_eq_true_2.
  - unfold expired_at, sessionTimeout. rewrite bool_decide_eq_false_2 by done.
    reflexivity.
Qed.

Lemma getSession_never_expired_witness :
  let late := mkWorld {["491" := mkSession 2 "Alice" "" "" 0 0]} (13 * 3600000) [] [] [] in
  let soon := mkWorld {["491" := mkSession 2 "Alice" "" "" 0 0]} (11 * 3600000) [] [] [] in
  (∃ s w', getSession "491" late = (Ok s, w') ∧ step s = 1 ∧ name s = "")
  ∧ ∃ w', getSession "491" soon
          = (Ok (mkSession 2 "Alice" "" "" 0 (11 * 3600000)), w').
Proof.
  intros late soon. split.
  - destruct (getSession_never_expired "491" late)
      as (s & w' & Hrun & _ & _ & _ & Hold & _).
    exists s, w'. split; [exact Hrun|].
    destruct (Hold (mkSession 2 "Alice" "" "" 0 0)) as (H1 & H2 & _).
    + reflexivity.
    + vm_compute. reflexivity.
    + split; assumption.
  - destruct (getSession_never_expired "491" soon)
      as (s & w' & Hrun & _ & _ & _ & _ & Hhit).
    exists w'. rewrite Hrun. f_equal. f_equal.
    apply (Hhit (mkSession 2 "Alice" "" "" 0 0)).
    + reflexivity.
    + vm_compute. discriminate.
Defined.

(** C4.  [updateSession] for a user without a session writes an error
    line, creates a session and returns it: step 1, empty fields, whatever
    the [updates] are; it returns normally. *)
Theorem updateSession_missing (userPhone : string) (updates : Updates.t) (w : World) :
  sessions w !! userPhone = None →
  ∃ s w',
    updateSession userPhone updates w = (Ok s, w')
    ∧ s = mkSession 1 "" "" "" (clock w) (clock w)
    ∧ sessions w' = <[userPhone := s]> (sessions w)
    ∧ console w' = console w ++ [ErrUpdateMissing userPhone]
    ∧ outbox w' = outbox w.
Proof.
  intros Hnone. rewrite updateSession_run, Hnone, createSession_run.
  eexists _, _. split; [reflexivity|]. repeat split.
Qed.

Lemma updateSession_missing_witness :
  ∃ w', updateSession "491" (Updates.mk (Some 3) (Some "Alice") None None) (initial 5 [])
        = (Ok (mkSession 1 "" "" "" 5 5), w').
Proof.
  destruct (updateSession_missing "491" (Updates.mk (Some 3) (Some "Alice") None None)
              (initial 5 [])) as (s & w' & Hrun & -> & _).
  - reflexivity.
  - exists w'. exact Hrun.
Defined.

(** C5.  [completeSession] returns [null] when the user has no session.
    When there is one, it prints the completion record (name, feedback,
    image and the minutes from [createdAt] to the clock, rounded to the
    nearest minute), deletes the entry and returns the session as it was;
    a later [getSession] for the user creates a session with step 1 and
    empty fields. *)
Theorem completeSession_spec (userPhone : string) (w : World) :
  (sessions w !! userPhone = None →
     ∃ w', completeSession userPhone w = (Ok None, w')
           ∧ sessions w' = sessions w
           ∧ console w' = console w ++ [ErrCompleteMissing userPhone])
  ∧ (∀ stored, sessions w !! userPhone = Some stored →
     ∃ w' minutes,
       completeSession userPhone w = (Ok (Some stored), w')
       ∧ console w' = console w ++
           [LogFeedbackCompleted
              (FeedbackData.mk (clock w) userPhone (name stored) (feedback stored)
                 (profileImageUrl stored) minutes (clock w))]
       ∧ 60000 * minutes - 30000 ≤ clock w - createdAt stored < 60000 * minutes + 30000
       ∧ sessions w' = delete userPhone (sessions w)
       ∧ sessions w' !! userPhone = None
       ∧ ∀ later, ∃ w'',
           getSession userPhone (at_time later w') = (Ok (mkSession 1 "" "" "" later later), w'')
           ∧ sessions w'' !! userPhone = Some (mkSession 1 "" "" "" later later)).
Proof.
  split.
  - intros Hnone. rewrite completeSession_run, Hnone. eexists. repeat split.
  - intros stored Hs. rewrite completeSession_run, Hs. cbv zeta.
    eexists _, _. split; [reflexivity|]. split; [reflexivity|].
    split.
    { pose proof (Math_round_div_nearest (clock w - createdAt stored) (1000 * 60)
                    ltac:(lia)) as Hr.
      cbv zeta in Hr. lia. }
    split; [reflexivity|]. split; [apply lookup_delete_eq|].
    intros later. rewrite getSession_run. cbv zeta. simpl.
    rewrite lookup_delete_eq. eexists. split; [reflexivity|].
    simpl. apply lookup_insert_eq.
Qed.

Lemma completeSession_spec_witness :
  let w := mkWorld {["491" := mkSession 3 "Alice" "Great service" "img-42" 0 2000]}
             90000 [] [] [] in
  ∃ w' minutes,
    completeSession "491" w
    = (Ok (Some (mkSession 3 "Alice" "Great service" "img-42" 0 2000)), w')
    ∧ console w' = [LogFeedbackCompleted
                      (FeedbackData.mk 90000 "491" "Alice" "Great service" "img-42"
                         minutes 90000)]
    ∧ sessions w' !! "491" = None.
Proof.
  intros w.
  destruct (completeSession_spec "491" w) as [_ Hsome].
  destruct (Hsome (mkSession 3 "Alice" "Great service" "img-42" 0 2000))
    as (w' & minutes & Hrun & Hlog & _ & _ & Hgone & _).
  - reflexivity.
  - exists w', minutes. split; [exact Hrun|]. split; [exact Hlog|exact Hgone].
Defined.

(** C6.  [advanceStep] sets the step to [min (current + 1) 4], where the
    current step is the one of the session that [getSession] hands over
    (the stored one unless it is missing or expired).  Repeated calls, at
    any times, never take a step that is at most 4 above 4, and a session
    at step 4 that does not expire between the calls stays at step 4. *)
Theorem advanceStep_min_4 (userPhone : string) (w : World) :
  ∃ cur w0 s w',
    getSession userPhone w = (Ok cur, w0)
    ∧ advanceStep userPhone w = (Ok s, w')
    ∧ sessions w' !! userPhone = Some s
    ∧ step s = Z.min (step cur + 1) 4
    ∧ step s ≤ 4
    ∧ (∀ stored, sessions w !! userPhone = Some stored →
         clock w - lastActivity stored ≤ sessionTimeout →
         step s = Z.min (step stored + 1) 4)
    ∧ (∀ stored times, sessions w !! userPhone = Some stored → step stored ≤ 4 →
         ∃ s', sessions (advances userPhone times w) !! userPhone = Some s'
               ∧ step s' ≤ 4)
    ∧ (∀ stored times, sessions w !! userPhone = Some stored → step stored = 4 →
         within_timeout (lastActivity stored) times →
         ∃ s', sessions (advances userPhone times w) !! userPhone = Some s'
               ∧ step s' = 4).
Proof.
  rewrite getSession_run, advanceStep_run. cbv zeta.
  eexists _, _, _, _. split; [reflexivity|]. split; [reflexivity|].
  split; [apply lookup_insert_eq|]. split; [reflexivity|].
  split; [simpl; lia|].
  split; [|split].
  - intros stored -> Hage. simpl.
    assert (expired_at (clock w) stored = false) as ->
      by (apply bool_decide_eq_false; lia).
    reflexivity.
  - intros stored times. apply advances_le_4.
  - intros stored times. apply advances_stay_4.
Qed.

Lemma advanceStep_min_4_witness :
  let w := mkWorld {["491" := mkSession 4 "Alice" "ok" "" 0 0]} 1000 [] [] [] in
  ∃ s', sessions (advances "491" [2000; 3000; 4000] w) !! "491" = Some s' ∧ step s' = 4.
Proof.
  intros w.
  destruct (advanceStep_min_4 "491" w) as (_ & _ & _ & _ & _ & _ & _ & _ & _ & _ & _ & H4).
  apply (H4 (mkSession 4 "Alice" "ok" "" 0 0)).
  - reflexivity.
  - reflexivity.
  - vm_compute. repeat split; discriminate.
Defined.

(** ** One turn of the dispatcher *)

Lemma sendTextMessage_run userPhone response w :
  sendTextMessage userPhone response w
  = (if next_send_ok w then Ok tt else Throw SendError, sent userPhone response w).
Proof.
  unfold sendTextMessage, next_send_ok, sent.
  by destruct (deliveries w) as [|[] net].
Qed.

Lemma handleIncomingMessage_run message w :
  handleIncomingMessage message w =
  match handleIncomingMessage_body message w with
  | (Ok a, w') => (Ok a, w')
  | (Throw e, w') => (Throw e, recovered message e w')
  end.
Proof.
  unfold handleIncomingMessage, try_catch at 1.
  destruct (handleIncomingMessage_body message w) as [[a|e] w']; [done|].
  run. unfold try_catch, getTemplate. rewrite sendTextMessage_run.
  unfold recovered. simpl.
  match goal with |- context [next_send_ok ?x] => destruct (next_send_ok x) end; done.
Qed.

Lemma current_lastActivity now found : lastActivity (current now found) = now.
Proof.
  unfold current. destruct found as [stored|]; [|done].
  by destruct (expired_at now stored).
Qed.

Lemma world_eq w1 w2 :
  sessions w1 = sessions w2 → clock w1 = clock w2 → console w1 = console w2 →
  outbox w1 = outbox w2 → deliveries w1 = deliveries w2 → w1 = w2.
Proof. destruct w1, w2; simpl; congruence. Qed.

Ltac store_norm :=
  apply world_eq; simpl;
  rewrite ?app_nil_r, ?lookup_insert_eq, ?insert_insert_eq, ?delete_insert_eq; 
  try reflexivity.

Lemma handleIncomingMessage_body_run message w :
  handleIncomingMessage_body message w
  = sendTextMessage (from message) (reply_of message w) (before_reply message w).
Proof.
  unfold handleIncomingMessage_body, reply_of, before_reply, transition.
  destruct (is_trigger message).
  { unfold mbind, M_bind. rewrite createSession_run. simpl. rewrite app_nil_r. reflexivity. }
  unfold mbind at 1, M_bind at 1. rewrite getSession_run. cbv beta iota zeta.
  fold (current (clock w) (sessions w !! from message)).
  pose proof (current_lastActivity (clock w) (sessions w !! from message)) as Hla.
  destruct (current (clock w) (sessions w !! from message)) as [st nm fb im cr la].
  simpl in Hla. subst la. 
  cbn [step name feedback profileImageUrl createdAt lastActivity].
  assert (Hdefault : ∀ w1 : World, sessions w1 !! from message = Some (mkSession st nm fb im cr (clock w)) → clock w1 = clock w →
     (resetSession (from message) ;; sendTextMessage (from message) (getTemplate greeting)) w1
     = sendTextMessage (from message) greeting (set_sessions (insert (from message) (mkSession 1 "" "" "" cr (clock w))) w1)).
  { intros w1 Hw1 Hc. unfold mbind, M_bind, resetSession. rewrite updateSession_run, Hw1. cbv zeta.
    unfold assign. simpl. rewrite Hc. reflexivity. }
  destruct st as [|[[p|p|]|[p|p|]|]|p]; cbv beta iota;
   try (rewrite Hdefault; [f_equal; store_norm | apply lookup_insert_eq | reflexivity ]).
  - unfold handleImageCollection. destruct (image_of message) as [i|]; simpl.
    + unfold mbind, M_bind. rewrite updateSession_run. simpl. rewrite lookup_insert_eq.
      cbv zeta. rewrite completeSession_run. simpl. rewrite lookup_insert_eq. cbv zeta.
      unfold getTemplate. simpl. f_equal. store_norm.
    + unfold getTemplate. f_equal. store_norm.
  - unfold handleFeedbackCollection. destruct (text_of message) as [t|]; simpl.
    + unfold mbind, M_bind. rewrite updateSession_run. simpl. rewrite lookup_insert_eq.
      cbv zeta. rewrite advanceStep_run. simpl. rewrite lookup_insert_eq. 
      rewrite not_expired_now by reflexivity.
      unfold getTemplate. simpl. f_equal. store_norm.
    + unfold getTemplate. f_equal. store_norm.
  - unfold handleNameCollection. destruct (text_of message) as [t|]; simpl.
    + unfold mbind, M_bind. rewrite updateSession_run. simpl. rewrite lookup_insert_eq.
      cbv zeta. rewrite advanceStep_run. simpl. rewrite lookup_insert_eq. 
      rewrite not_expired_now by reflexivity.
      unfold getTemplate. simpl. f_equal. store_norm.
    + unfold getTemplate. f_equal. store_norm.
Qed.

(** Every turn: the entry of the user is the one the transition gives,
    the reply is sent, and a rejected send is followed by one attempt to
    send the system-error text before the failure is raised again. *)
Lemma handleIncomingMessage_turn message w :
  ∃ r w',
    handleIncomingMessage message w = (r, w')
    ∧ sessions w' = sessions (before_reply message w)
    ∧ (next_send_ok w = true →
         r = Ok tt
         ∧ outbox w' = outbox w ++ [(from message, reply_of message w)]
         ∧ console w' = console (before_reply message w))
    ∧ (next_send_ok w = false →
         r = Throw SendError
         ∧ outbox w' = outbox w ++ [(from message, reply_of message w);
                                    (from message, systemError)]).
Proof.
  rewrite handleIncomingMessage_run, handleIncomingMessage_body_run, sendTextMessage_run.
  assert (Hnet : next_send_ok (before_reply message w) = next_send_ok w).
  { unfold before_reply.
    by destruct (transition (clock w) message (sessions w !! from message)) as [[? ?] ?]. }
  assert (Hout : outbox (before_reply message w) = outbox w).
  { unfold before_reply.
    by destruct (transition (clock w) message (sessions w !! from message)) as [[? ?] ?]. }
  rewrite Hnet. destruct (next_send_ok w).
  - eexists _, _. split; [reflexivity|]. split; [reflexivity|].
    split; [|done]. intros _. simpl. by rewrite Hout.
  - eexists _, _. split; [reflexivity|].
    split.
    { unfold recovered. cbv zeta.
      match goal with |- context [if ?b then _ else _] => destruct b end; reflexivity. }
    split; [done|]. intros _. split; [reflexivity|].
    unfold recovered. cbv zeta.
    match goal with |- context [if ?b then _ else _] => destruct b end;
      simpl; rewrite Hout, <- app_assoc; reflexivity.
Qed.

Lemma is_trigger_text message body :
  type message = "text" → text message = Some (Msg.mkText body) →
  is_trigger message = bool_decide (JsString.trim (JsString.toLowerCase body) = "hi").
Proof.
  intros Hty Htx. unfold is_trigger, text_of.
  rewrite bool_decide_eq_true_2 by done. by rewrite Htx.
Qed.

Lemma text_of_other message : type message ≠ "text" → text_of message = None.
Proof. intros H. unfold text_of. by rewrite bool_decide_eq_false_2. Qed.

Lemma image_of_other message : type message ≠ "image" → image_of message = None.
Proof. intros H. unfold image_of. by rewrite bool_decide_eq_false_2. Qed.

Lemma is_trigger_no_text message : text_of message = None → is_trigger message = false.
Proof. intros H. unfold is_trigger. by rewrite H. Qed.

(** C3.  A text message whose body, in lower case and trimmed, is "hi"
    replaces the user's entry, whatever it held, by a session with step 1
    and empty fields, and the greeting is what is sent: the step handlers
    do not run.  When the sender rejects the greeting, the system-error
    text is tried once and the failure is raised. *)
Theorem trigger_restarts (message : Message) (body : string) (w : World) :
  type message = "text" →
  text message = Some (Msg.mkText body) →
  JsString.trim (JsString.toLowerCase body) = "hi" →
  ∃ r w',
    handleIncomingMessage message w = (r, w')
    ∧ sessions w' = <[from message := mkSession 1 "" "" "" (clock w) (clock w)]> (sessions w)
    ∧ (next_send_ok w = true →
         r = Ok tt ∧ outbox w' = outbox w ++ [(from message, greeting)]
         ∧ console w' = console w)
    ∧ (next_send_ok w = false →
         r = Throw SendError
         ∧ outbox w' = outbox w ++ [(from message, greeting); (from message, systemError)]).
Proof.
  intros Hty Htx Hhi.
  pose proof (is_trigger_text message body Hty Htx) as Htrig.
  rewrite bool_decide_eq_true_2 in Htrig by done.
  assert (Hreply : reply_of message w = greeting)
    by (unfold reply_of, transition; by rewrite Htrig).
  assert (Hbefore : before_reply message w
                    = mkWorld (<[from message := fresh (clock w)]> (sessions w)) (clock w)
                        (console w ++ []) (outbox w) (deliveries w))
    by (unfold before_reply, transition; by rewrite Htrig).
  rewrite handleIncomingMessage_run, handleIncomingMessage_body_run, sendTextMessage_run.
  rewrite Hreply, Hbefore. rewrite app_nil_r.
  unfold next_send_ok at 1. simpl. fold (next_send_ok w).
  destruct (next_send_ok w) eqn:Hnet.
  - eexists _, _. split; [reflexivity|]. simpl. by repeat split.
  - eexists _, _. split; [reflexivity|]. unfold recovered. cbv zeta.
    match goal with |- context [if ?b then _ else _] => destruct b end;
      simpl; rewrite <- ?app_assoc; by repeat split.
Qed.

Lemma trigger_restarts_witness :
  let w := mkWorld {["491" := mkSession 3 "Alice" "Great service" "" 0 2000]} 5000 [] [] [] in
  let message := mkMessage "491" "text" (Some (Msg.mkText "  Hi ")) None in
  ∃ r w',
    handleIncomingMessage message w = (r, w')
    ∧ sessions w' !! "491" = Some (mkSession 1 "" "" "" 5000 5000)
    ∧ outbox w' = [("491", greeting)].
Proof.
  intros w message.
  destruct (trigger_restarts message "  Hi " w) as (r & w' & Hrun & Hs & Hok & _).
  - reflexivity.
  - reflexivity.
  - vm_compute. reflexivity.
  - exists r, w'. split; [exact Hrun|]. split.
    + rewrite Hs. apply lookup_insert_eq.
    + destruct Hok as (_ & Hout & _); [reflexivity|exact Hout].
Defined.

(** C9 as it is stated fails, in three ways.  A user at step 3 who sends
    the text "hi", which is not an image, gets a new session at step 1
    and the greeting.  A user whose session at step 3 has expired and who
    sends an audio message gets a new session at step 1 and the "need
    text" prompt.  And a user at step 1 who sends an image keeps step and
    fields, but [lastActivity] of the session moves to the clock. *)
Lemma mismatch_unchanged_counterexample :
  let stored := mkSession 3 "Alice" "Great service" "" 0 2000 in
  let hi := mkMessage "491" "text" (Some (Msg.mkText "hi")) None in
  let audio := mkMessage "491" "audio" None None in
  let picture := mkMessage "491" "image" None (Some (Msg.mkImage "img-42")) in
  let w := mkWorld {["491" := stored]} 5000 [] [] [] in
  let late := mkWorld {["491" := stored]} (13 * 3600000) [] [] [] in
  let early := mkWorld {["491" := mkSession 1 "" "" "" 0 0]} 5000 [] [] [] in
  (step stored = 3 ∧ type hi ≠ "image" ∧ type audio ≠ "image" ∧ type picture ≠ "text")
  ∧ (sessions (world_after (handleIncomingMessage hi) w) !! "491"
       = Some (mkSession 1 "" "" "" 5000 5000)
     ∧ outbox (world_after (handleIncomingMessage hi) w) = [("491", greeting)])
  ∧ (sessions (world_after (handleIncomingMessage audio) late) !! "491"
       = Some (mkSession 1 "" "" "" (13 * 3600000) (13 * 3600000))
     ∧ outbox (world_after (handleIncomingMessage audio) late) = [("491", needText)])
  ∧ (sessions (world_after (handleIncomingMessage picture) early) !! "491"
       = Some (mkSession 1 "" "" "" 0 5000)
     ∧ outbox (world_after (handleIncomingMessage picture) early) = [("491", needText)]).
Proof. vm_compute. repeat split; (reflexivity || discriminate). Qed.

(** C9, amended.  When the stored session has not expired and the message
    is not the "hi" trigger, a message of the wrong type (no text at steps
    1 and 2, no image at step 3) leaves step, name, feedback, image and
    [createdAt] of the session as they are, sets [lastActivity] to the
    clock, leaves the other users alone, and the prompt of the step is
    sent: "need text" at steps 1 and 2, "need image" at step 3. *)
Theorem mismatch_reprompts (message : Message) (stored : Session) (w : World) :
  sessions w !! from message = Some stored →
  clock w - lastActivity stored ≤ 12 * 60 * 60 * 1000 →
  ((step stored = 1 ∨ step stored = 2) ∧ type message ≠ "text")
  ∨ (step stored = 3 ∧ type message ≠ "image" ∧ is_trigger message = false) →
  ∃ r w',
    handleIncomingMessage message w = (r, w')
    ∧ sessions w' = <[from message :=
                        mkSession (step stored) (name stored) (feedback stored)
                          (profileImageUrl stored) (createdAt stored) (clock w)]> (sessions w)
    ∧ (next_send_ok w = true →
         r = Ok tt
         ∧ outbox w' = outbox w ++
             [(from message, if decide (step stored = 3) then needImage else needText)]
         ∧ console w' = console w)
    ∧ (next_send_ok w = false →
         r = Throw SendError
         ∧ outbox w' = outbox w ++
             [(from message, if decide (step stored = 3) then needImage else needText);
              (from message, systemError)]).
Proof.
  intros Hs Hage Hcase.
  assert (Hlive : expired_at (clock w) stored = false)
    by (apply bool_decide_eq_false; unfold sessionTimeout; lia).
  assert (Htr : transition (clock w) message (sessions w !! from message)
                = (Some (set_lastActivity (clock w) stored),
                   if decide (step stored = 3) then needImage else needText, [])).
  { unfold transition, current. rewrite Hs, Hlive.
    destruct Hcase as [[Hst Hty]|(Hst & Hty & Htrig)].
    - rewrite (is_trigger_no_text message), (text_of_other message) by auto using text_of_other.
      simpl. destruct Hst as [-> | ->]; reflexivity.
    - rewrite Htrig, (image_of_other message) by done.
      simpl. rewrite Hst. reflexivity. }
  destruct (handleIncomingMessage_turn message w) as (r & w' & Hrun & Hsess & Hok & Hko).
  exists r, w'. split; [exact Hrun|].
  unfold reply_of in Hok, Hko. unfold before_reply in Hsess, Hok.
  rewrite Htr in Hsess, Hok, Hko. simpl in Hsess, Hok, Hko.
  rewrite app_nil_r in Hok.
  split; [exact Hsess|]. split; assumption.
Qed.

Lemma mismatch_reprompts_witness :
  let stored := mkSession 1 "" "" "" 0 0 in
  let w := mkWorld {["491" := stored]} 5000 [] [] [] in
  let message := mkMessage "491" "image" None (Some (Msg.mkImage "img-42")) in
  ∃ r w',
    handleIncomingMessage message w = (r, w')
    ∧ sessions w' !! "491" = Some (mkSession 1 "" "" "" 0 5000)
    ∧ outbox w' = [("491", needText)].
Proof.
  intros stored w message.
  destruct (mismatch_reprompts message stored w) as (r & w' & Hrun & Hs & Hok & _).
  - reflexivity.
  - vm_compute. discriminate.
  - left. split; [left; reflexivity|]. discriminate.
  - exists r, w'. split; [exact Hrun|]. split.
    + rewrite Hs. apply lookup_insert_eq.
    + destruct Hok as (_ & Hout & _); [reflexivity|exact Hout].
Defined.

(** C10.  [resetSession] on an existing session sets step 1, empties name,
    feedback and image, sets [lastActivity] to the clock and keeps
    [createdAt]; the "hi" trigger instead stores a new session whose
    [createdAt] is the clock.  A completion that follows the reset
    therefore counts its minutes from the creation of the original
    session. *)
Theorem resetSession_keeps_createdAt (userPhone : string) (stored : Session) (w : World) :
  sessions w !! userPhone = Some stored →
  ∃ w',
    resetSession userPhone w
    = (Ok (mkSession 1 "" "" "" (createdAt stored) (clock w)), w')
    ∧ sessions w' = <[userPhone := mkSession 1 "" "" "" (createdAt stored) (clock w)]> (sessions w)
    ∧ console w' = console w
    ∧ (∀ message, from message = userPhone → is_trigger message = true →
         sessions (world_after (handleIncomingMessage message) w) !! userPhone
         = Some (mkSession 1 "" "" "" (clock w) (clock w)))
    ∧ (∀ later, ∃ w'',
         completeSession userPhone (at_time later w')
         = (Ok (Some (mkSession 1 "" "" "" (createdAt stored) (clock w))), w'')
         ∧ console w'' = console w ++
             [LogFeedbackCompleted
                (FeedbackData.mk later userPhone "" "" ""
                   (Math_round_div (later - createdAt stored) (1000 * 60)) later)]).
Proof.
  intros Hs. unfold resetSession. rewrite updateSession_run, Hs. cbv zeta.
  unfold assign. simpl.
  eexists. split; [reflexivity|]. split; [reflexivity|]. split; [reflexivity|].
  split.
  - intros message Hfrom Htrig.
    destruct (handleIncomingMessage_turn message w) as (r & w' & Hrun & Hsess & _).
    unfold world_after. rewrite Hrun. simpl. rewrite Hsess.
    unfold before_reply, transition. rewrite Htrig. simpl.
    rewrite Hfrom. apply lookup_insert_eq.
  - intros later. rewrite completeSession_run. simpl. rewrite lookup_insert_eq.
    cbv zeta. simpl. eexists. split; reflexivity.
Qed.

Lemma resetSession_keeps_createdAt_witness :
  let stored := mkSession 4 "Alice" "Great service" "" 0 2000 in
  let w := mkWorld {["491" := stored]} 60000 [] [] [] in
  ∃ w', resetSession "491" w = (Ok (mkSession 1 "" "" "" 0 60000), w').
Proof.
  intros stored w.
  destruct (resetSession_keeps_createdAt "491" stored w) as (w' & Hrun & _).
  - reflexivity.
  - exists w'. exact Hrun.
Defined.

(** ** The sweep *)

Lemma cleanup_loop_run entries : ∀ c w,
  cleanup_loop entries c w
  = (Ok (c + Z.of_nat (length (filter (is_old (clock w)) entries))),
     set_sessions (λ m, swept (clock w) m entries) w).
Proof.
  induction entries as [|[u s] entries IH]; intros c w.
  - simpl. rewrite Z.add_0_r. by destruct w.
  - simpl. unfold mbind at 1, M_bind at 1. rewrite isSessionExpired_run.
    rewrite filter_cons.
    destruct (decide (is_old (clock w) (u, s))) as [Hold|Hold];
      unfold is_old in Hold; simpl in Hold.
    + rewrite Hold. unfold mbind, M_bind, sessions_delete. rewrite IH. simpl.
      f_equal. f_equal. lia.
    + apply not_true_is_false in Hold. rewrite Hold, IH. reflexivity.
Qed.

Lemma swept_lookup_old now entries : ∀ m u s,
  (u, s) ∈ entries → expired_at now s = true → swept now m entries !! u = None.
Proof.
  induction entries as [|[u' s'] entries IH]; intros m u s Hin Hold; simpl.
  - by apply elem_of_nil in Hin.
  - apply elem_of_cons in Hin as [[= <- <-]|Hin].
    + rewrite Hold. clear IH.
      assert (∀ m', m' !! u = None → swept now m' entries !! u = None) as Hkeep.
      { clear. induction entries as [|[u' s'] entries IH]; intros m' Hm'; simpl; [done|].
        apply IH. destruct (expired_at now s'); [|done].
        destruct (decide (u' = u)) as [->|]; [apply lookup_delete_eq|by rewrite lookup_delete_ne]. }
      apply Hkeep, lookup_delete_eq.
    + eapply IH; eauto.
Qed.

Lemma swept_lookup_live now entries : ∀ m u,
  (∀ s, (u, s) ∈ entries → expired_at now s = false) → swept now m entries !! u = m !! u.
Proof.
  induction entries as [|[u' s'] entries IH]; intros m u Hlive; simpl; [done|].
  rewrite IH by (intros s Hin; apply Hlive; by right).
  destruct (expired_at now s') eqn:Hold; [|done].
  apply lookup_delete_ne. intros ->.
  specialize (Hlive s' ltac:(left)). congruence.
Qed.

Lemma swept_filter now (m : gmap string Session) :
  swept now m (map_to_list m) = filter (λ e, ¬ is_old now e) m.
Proof.
  apply map_eq. intros u.
  destruct (m !! u) as [s|] eqn:Hs.
  - destruct (expired_at now s) eqn:Hold.
    + rewrite (swept_lookup_old now _ m u s); [|by apply elem_of_map_to_list|done].
      symmetry. apply map_lookup_filter_None_2. right. intros x Hx Hn.
      apply Hn. unfold is_old. simpl. congruence.
    + rewrite swept_lookup_live.
      * rewrite Hs. symmetry. apply map_lookup_filter_Some_2; [done|].
        unfold is_old. simpl. congruence.
      * intros s' Hin. apply elem_of_map_to_list in Hin. congruence.
  - rewrite swept_lookup_live.
    + rewrite Hs. symmetry. apply map_lookup_filter_None_2. by left.
    + intros s' Hin. apply elem_of_map_to_list in Hin. congruence.
Qed.

Lemma size_filter_list now (m : gmap string Session) :
  length (filter (is_old now) (map_to_list m)) = size (filter (is_old now) m).
Proof.
  rewrite (map_filter_alt (is_old now) m).
  rewrite <- length_map_to_list.
  symmetry. apply Permutation_length, map_to_list_to_map.
  eapply sublist_NoDup; [apply (NoDup_fst_map_to_list m)|].
  apply fmap_sublist, sublist_filter.
Qed.

(** C7.  With [N] sessions last active more than 12 hours ago and [M]
    others in the map, [cleanupExpiredSessions] returns [N], deletes the
    [N] expired sessions and leaves the [M] others as they are. *)
Theorem cleanup_removes_expired (w : World) (N M : nat) :
  size (filter (is_old (clock w)) (sessions w)) = N →
  size (filter (λ e, ¬ is_old (clock w) e) (sessions w)) = M →
  ∃ w',
    cleanupExpiredSessions w = (Ok (Z.of_nat N), w')
    ∧ sessions w' = filter (λ e, ¬ is_old (clock w) e) (sessions w)
    ∧ (∀ u s, sessions w !! u = Some s →
         sessions w' !! u = if expired_at (clock w) s then None else Some s)
    ∧ size (sessions w') = M
    ∧ size (sessions w) = (N + M)%nat
    ∧ console w' = console w ∧ outbox w' = outbox w.
Proof.
  intros HN HM. unfold cleanupExpiredSessions, mbind, M_bind, newDate, sessions_entries.
  rewrite cleanup_loop_run. unfold set_sessions. simpl.
  rewrite size_filter_list, HN, swept_filter.
  eexists. split; [reflexivity|]. simpl.
  split; [reflexivity|]. split; [|split; [exact HM|split; [|done]]].
  - intros u s Hs. destruct (expired_at (clock w) s) eqn:Hold.
    + apply map_lookup_filter_None_2. right. intros x Hx Hn. apply Hn.
      unfold is_old. simpl. congruence.
    + apply map_lookup_filter_Some_2; [done|]. unfold is_old. simpl. congruence.
  - rewrite <- HN, <- HM.
    rewrite <- (map_size_disj_union _ _ (map_disjoint_filter_complement _ (sessions w))).
    by rewrite map_filter_union_complement.
Qed.

Lemma cleanup_removes_expired_witness :
  let hour := 3600000 in
  let w := mkWorld {[ "491" := mkSession 2 "Alice" "" "" 0 0;
                      "492" := mkSession 1 "" "" "" 0 (hour);
                      "493" := mkSession 3 "Bob" "fine" "" 0 (2 * hour) ]}
             (13 * hour + 1) [] [] [] in
  ∃ w', cleanupExpiredSessions w = (Ok 2, w')
        ∧ sessions w' !! "491" = None
        ∧ sessions w' !! "492" = None
        ∧ sessions w' !! "493" = Some (mkSession 3 "Bob" "fine" "" 0 (2 * hour)).
Proof.
  intros hour w.
  destruct (cleanup_removes_expired w 2 1) as (w' & Hrun & _ & Hkeep & _).
  - vm_compute. reflexivity.
  - vm_compute. reflexivity.
  - exists w'. split; [exact Hrun|].
    split; [|split].
    + apply (Hkeep "491" (mkSession 2 "Alice" "" "" 0 0)). reflexivity.
    + apply (Hkeep "492" (mkSession 1 "" "" "" 0 hour)). reflexivity.
    + apply (Hkeep "493" (mkSession 3 "Bob" "fine" "" 0 (2 * hour))). reflexivity.
Defined.

(** ** The invariant of the flow *)

Lemma transition_filled now message found :
  not_blank message →
  (∀ s, found = Some s → filled s) →
  ∀ s', (transition now message found).1.1 = Some s' → 1 ≤ step s' ≤ 3 ∧ filled s'.
Proof.
  intros Htext Hfound s'. unfold transition.
  destruct (is_trigger message).
  { intros [= <-]. unfold filled. simpl. lia. }
  assert (Hcur : filled (current now found)).
  { unfold current. destruct found as [stored|]; [|unfold filled; simpl; lia].
    destruct (expired_at now stored); [unfold filled; simpl; lia|].
    apply (Hfound stored eq_refl). }
  destruct (current now found) as [st nm fb im cr la]. unfold filled in Hcur |- *.
  simpl in Hcur |- *.
  destruct st as [|[[p|p|]|[p|p|]|]|p]; simpl;
    try (intros [= <-]; simpl; split; [lia|split; intros; lia]).
  - destruct (image_of message); [done|]. intros [= <-]. simpl. split; [lia|exact Hcur].
  - destruct (text_of message) as [t|] eqn:Ht.
    + intros [= <-]. simpl. split; [lia|]. split; intros _.
      * apply Hcur. lia.
      * by apply Htext.
    + intros [= <-]. simpl. split; [lia|exact Hcur].
  - destruct (text_of message) as [t|] eqn:Ht.
    + intros [= <-]. simpl. split; [lia|]. split; intros H; [by apply Htext|lia].
    + intros [= <-]. simpl. split; [lia|exact Hcur].
Qed.

(** C1 as it is stated fails: the name is the trimmed text, and a text of
    white space is accepted as a name.  After one blank text the session
    of the user is at step 2 with an empty name. *)
Lemma reachable_filled_counterexample :
  let message := mkMessage "491" "text" (Some (Msg.mkText " ")) None in
  let w := world_after (handleIncomingMessage message)
             (with_deliveries [] (at_time 0 (initial 0 []))) in
  reachable (λ _, True) w
  ∧ sessions w !! "491" = Some (mkSession 2 "" "" "" 0 0)
  ∧ ¬ filled (mkSession 2 "" "" "" 0 0).
Proof.
  intros message w. split; [|split].
  - apply reachable_turn; [apply reachable_initial|exact I].
  - vm_compute. reflexivity.
  - intros [Hname _]. apply Hname; [simpl; lia|reflexivity].
Qed.

(** C1, amended.  In every world reached by handled messages whose texts
    are more than white space, every session has step 1, 2 or 3, a name
    that is not empty once the step is above 1, and a feedback that is not
    empty once the step is above 2. *)
Theorem reachable_sessions_filled (w : World) :
  reachable not_blank w →
  ∀ userPhone s, sessions w !! userPhone = Some s →
    1 ≤ step s ≤ 3
    ∧ (step s > 1 → name s ≠ "")
    ∧ (step s > 2 → feedback s ≠ "").
Proof.
  induction 1 as [now net|w now net message Hreach IH Htext]; intros userPhone s Hs.
  - simpl in Hs. by rewrite lookup_empty in Hs.
  - destruct (handleIncomingMessage_turn message (with_deliveries net (at_time now w)))
      as (r & w' & Hrun & Hsess & _).
    unfold world_after in Hs. rewrite Hrun in Hs. simpl in Hs.
    rewrite Hsess in Hs. unfold before_reply in Hs. simpl in Hs.
    pose proof (transition_filled now message (sessions w !! from message) Htext) as Hstep.
    destruct (transition now message (sessions w !! from message)) as [[e reply] printed].
    simpl in Hs, Hstep.
    destruct (decide (userPhone = from message)) as [->|Hother].
    + destruct e as [s'|]; simpl in Hs.
      * rewrite lookup_insert_eq in Hs. injection Hs as <-.
        apply Hstep; [|done]. intros s0 Hs0. by destruct (IH _ _ Hs0) as (_ & ? & ?).
      * by rewrite lookup_delete_eq in Hs.
    + destruct e as [s'|]; simpl in Hs.
      * rewrite lookup_insert_ne in Hs by done. by apply (IH userPhone).
      * rewrite lookup_delete_ne in Hs by done. by apply (IH userPhone).
Qed.

Lemma reachable_sessions_filled_witness :
  let hi := mkMessage "491" "text" (Some (Msg.mkText "hi")) None in
  let alice := mkMessage "491" "text" (Some (Msg.mkText " Alice ")) None in
  let w1 := world_after (handleIncomingMessage hi)
              (with_deliveries [] (at_time 0 (initial 0 []))) in
  let w2 := world_after (handleIncomingMessage alice)
              (with_deliveries [false] (at_time 1000 w1)) in
  sessions w2 !! "491" = Some (mkSession 2 "Alice" "" "" 0 1000)
  ∧ name (mkSession 2 "Alice" "" "" 0 1000) ≠ "".
Proof.
  intros hi alice w1 w2.
  assert (Hs : sessions w2 !! "491" = Some (mkSession 2 "Alice" "" "" 0 1000))
    by (vm_compute; reflexivity).
  split; [exact Hs|].
  refine (proj1 (proj2 (reachable_sessions_filled w2 _ "491" _ Hs)) _).
  - apply reachable_turn; [apply reachable_turn; [apply reachable_initial|]|].
    + intros t [= <-]. vm_compute. discriminate.
    + intros t [= <-]. vm_compute. discriminate.
  - simpl. lia.
Defined.

(** ** Payloads that are not for the flow *)

Lemma processChange_other change w :
  field change ≠ Some "messages" → processChange change w = (Ok tt, w).
Proof.
  intros Hfield. unfold processChange.
  by rewrite !bool_decide_eq_false_2.
Qed.

Lemma for_of_skip {A} (xs : list A) (body : A → M unit) w :
  (∀ x, x ∈ xs → body x w = (Ok tt, w)) → for_of xs body w = (Ok tt, w).
Proof.
  induction xs as [|x xs IH]; intros Hskip; simpl; [done|].
  unfold mbind, M_bind. rewrite Hskip by left.
  apply IH. intros y Hy. apply Hskip. by right.
Qed.

(** C8 as it is stated fails: a payload of the recognised object whose
    entry has no [changes], or which has no [entry] at all, carries no
    recognised field, and processing it throws, because the missing list
    cannot be iterated. *)
Lemma payload_ignored_counterexample :
  let account := Some "whatsapp_business_account" in
  let no_changes := mkPayload account (Some [mkEntry None]) in
  let no_entry := mkPayload account None in
  lacks_recognized_field no_changes
  ∧ lacks_recognized_field no_entry
  ∧ ∀ w,
      processWebhookPayload no_changes w
      = (Throw (TypeError "entry.changes is not iterable"), w)
      ∧ processWebhookPayload no_entry w
        = (Throw (TypeError "payload.entry is not iterable"), w).
Proof.
  intros account no_changes no_entry. split; [|split].
  - intros e He c Hc. simpl in He. apply list_elem_of_singleton in He. subst e.
    simpl in Hc. by apply elem_of_nil in Hc.
  - intros e He. simpl in He. by apply elem_of_nil in He.
  - intros w. split; reflexivity.
Qed.

(** C8, amended.  A payload whose [object] is not the recognised value,
    or whose list of entries is there, each entry with its list of
    changes, and no change with the [field] "messages", is processed
    without any change of the world (sessions, console and sent messages)
    and without an error. *)
Theorem payload_ignored (payload : Payload) (w : World) :
  object payload ≠ Some "whatsapp_business_account"
  ∨ (∃ entries, entry payload = Some entries
       ∧ ∀ e, e ∈ entries →
           ∃ cs, changes e = Some cs ∧ ∀ c, c ∈ cs → field c ≠ Some "messages") →
  processWebhookPayload payload w = (Ok tt, w).
Proof.
  intros Hcase. unfold processWebhookPayload.
  destruct (decide (object payload ≠ Some "whatsapp_business_account")) as [Hobj|Hobj].
  { by rewrite bool_decide_eq_true_2. }
  rewrite bool_decide_eq_false_2 by done.
  destruct Hcase as [Hno|(entries & Hentries & Hchanges)]; [done|].
  rewrite Hentries. unfold iterate at 1, mbind at 1, M_bind at 1, mret, M_ret.
  apply for_of_skip. intros e He.
  destruct (Hchanges e He) as (cs & Hcs & Hfields).
  rewrite Hcs. unfold iterate, mbind at 1, M_bind at 1, mret, M_ret.
  apply for_of_skip. intros c Hc. by apply processChange_other, Hfields.
Qed.

Lemma payload_ignored_witness :
  let other := mkPayload (Some "page") None in
  let account := mkPayload (Some "whatsapp_business_account")
                   (Some [mkEntry (Some [mkChange (Some "account_update") None])]) in
  let w := mkWorld {["491" := mkSession 2 "Alice" "" "" 0 0]} 5000 [] [] [] in
  processWebhookPayload other w = (Ok tt, w)
  ∧ processWebhookPayload account w = (Ok tt, w).
Proof.
  intros other account w. split.
  - apply payload_ignored. left. discriminate.
  - apply payload_ignored. right. eexists. split; [reflexivity|].
    intros e He. apply list_elem_of_singleton in He. subst e.
    eexists. split; [reflexivity|].
    intros c Hc. apply list_elem_of_singleton in Hc. subst c. discriminate.
Defined.

(** * Further properties of the code *)

(** ** Turns of the dispatcher *)

Lemma before_reply_fields message w :
  clock (before_reply message w) = clock w
  ∧ outbox (before_reply message w) = outbox w
  ∧ deliveries (before_reply message w) = deliveries w.
Proof.
  unfold before_reply.
  by destruct (transition (clock w) message (sessions w !! from message)) as [[? ?] ?].
Qed.

(** A turn whose transition is known. *)
Lemma turn_with message w e reply printed :
  transition (clock w) message (sessions w !! from message) = (e, reply, printed) →
  ∃ r w',
    handleIncomingMessage message w = (r, w')
    ∧ sessions w' = store_put (from message) e (sessions w)
    ∧ (next_send_ok w = true →
         r = Ok tt
         ∧ outbox w' = outbox w ++ [(from message, reply)]
         ∧ console w' = console w ++ printed)
    ∧ (next_send_ok w = false →
         r = Throw SendError
         ∧ outbox w' = outbox w ++ [(from message, reply); (from message, systemError)]).
Proof.
  intros Htr.
  destruct (handleIncomingMessage_turn message w) as (r & w' & Hrun & Hsess & Hok & Hko).
  exists r, w'. split; [exact Hrun|].
  unfold reply_of in Hok, Hko. unfold before_reply in Hsess, Hok.
  rewrite Htr in Hsess, Hok, Hko. simpl in Hsess, Hok, Hko.
  split; [exact Hsess|]. split; assumption.
Qed.

Lemma getSession_current userPhone w cur w0 :
  getSession userPhone w = (Ok cur, w0) →
  cur = current (clock w) (sessions w !! userPhone).
Proof. rewrite getSession_run. cbv zeta. unfold current. by intros [= <- _]. Qed.

Lemma image_not_trigger message i : image_of message = Some i → is_trigger message = false.
Proof.
  unfold image_of, is_trigger, text_of. intros Hi.
  destruct (decide (type message = "image")) as [Hty|Hty].
  - rewrite (bool_decide_eq_false_2 (type message = "text")); [done|].
    rewrite Hty. discriminate.
  - by rewrite bool_decide_eq_false_2 in Hi.
Qed.

(** X1.  A text that is not the trigger, handled at step 1 (the session found
    there, or the one just created for an unknown or expired user), is
    taken as the name: the trimmed text is stored, the step becomes 2,
    the other fields and [createdAt] stay, and the reply is the
    acknowledgment with that name. *)
Theorem name_collected (message : Message) (t : Msg.text) (cur : Session) (w w0 : World) :
  getSession (from message) w = (Ok cur, w0) →
  step cur = 1 →
  text_of message = Some t →
  is_trigger message = false →
  ∃ r w',
    handleIncomingMessage message w = (r, w')
    ∧ sessions w' = <[from message :=
                        mkSession 2 (JsString.trim (Msg.body t)) (feedback cur)
                          (profileImageUrl cur) (createdAt cur) (clock w)]> (sessions w)
    ∧ (next_send_ok w = true →
         r = Ok tt
         ∧ outbox w' = outbox w ++
             [(from message, nameReceived (JsString.trim (Msg.body t)))]).
Proof.
  intros Hget Hstep Htext Htrig. apply getSession_current in Hget.
  destruct (turn_with message w
              (Some (mkSession 2 (JsString.trim (Msg.body t)) (feedback cur)
                       (profileImageUrl cur) (createdAt cur) (clock w)))
              (nameReceived (JsString.trim (Msg.body t))) [])
    as (r & w' & Hrun & Hs & Hok & _).
  { unfold transition. rewrite Htrig, <- Hget, Hstep, Htext. reflexivity. }
  exists r, w'. split; [exact Hrun|]. split; [exact Hs|].
  intros Hnet. destruct (Hok Hnet) as (? & ? & _). by split.
Qed.

Lemma name_collected_witness :
  let message := mkMessage "491" "text" (Some (Msg.mkText " Bob ")) None in
  ∃ r w',
    handleIncomingMessage message (initial 7 []) = (r, w')
    ∧ sessions w' !! "491" = Some (mkSession 2 "Bob" "" "" 7 7)
    ∧ outbox w' = [("491", nameReceived "Bob")].
Proof.
  intros message.
  destruct (name_collected message (Msg.mkText " Bob ") (mkSession 1 "" "" "" 7 7)
              (initial 7 []) (set_sessions (insert "491" (mkSession 1 "" "" "" 7 7)) (initial 7 [])))
    as (r & w' & Hrun & Hs & Hok).
  - reflexivity.
  - reflexivity.
  - reflexivity.
  - reflexivity.
  - exists r, w'. split; [exact Hrun|]. split.
    + rewrite Hs. apply lookup_insert_eq.
    + destruct Hok as [_ Hout]; [reflexivity|exact Hout].
Defined.

(** X3.  A text that is not the trigger, handled at step 2, is taken as the
    feedback: the trimmed text is stored, the step becomes 3, the name,
    the image and [createdAt] stay, and the reply asks for the photo. *)
Theorem feedback_collected (message : Message) (t : Msg.text) (cur : Session) (w w0 : World) :
  getSession (from message) w = (Ok cur, w0) →
  step cur = 2 →
  text_of message = Some t →
  is_trigger message = false →
  ∃ r w',
    handleIncomingMessage message w = (r, w')
    ∧ sessions w' = <[from message :=
                        mkSession 3 (name cur) (JsString.trim (Msg.body t))
                          (profileImageUrl cur) (createdAt cur) (clock w)]> (sessions w)
    ∧ (next_send_ok w = true →
         r = Ok tt ∧ outbox w' = outbox w ++ [(from message, feedbackReceived)]).
Proof.
  intros Hget Hstep Htext Htrig. apply getSession_current in Hget.
  destruct (turn_with message w
              (Some (mkSession 3 (name cur) (JsString.trim (Msg.body t))
                       (profileImageUrl cur) (createdAt cur) (clock w)))
              feedbackReceived [])
    as (r & w' & Hrun & Hs & Hok & _).
  { unfold transition. rewrite Htrig, <- Hget, Hstep, Htext. reflexivity. }
  exists r, w'. split; [exact Hrun|]. split; [exact Hs|].
  intros Hnet. destruct (Hok Hnet) as (? & ? & _). by split.
Qed.

Lemma feedback_collected_witness :
  let message := mkMessage "491" "text" (Some (Msg.mkText "Great service")) None in
  let w := mkWorld {["491" := mkSession 2 "Alice" "" "" 0 1000]} 2000 [] [] [] in
  ∃ r w',
    handleIncomingMessage message w = (r, w')
    ∧ sessions w' !! "491" = Some (mkSession 3 "Alice" "Great service" "" 0 2000)
    ∧ outbox w' = [("491", feedbackReceived)].
Proof.
  intros message w.
  destruct (feedback_collected message (Msg.mkText "Great service")
              (mkSession 2 "Alice" "" "" 0 2000) w
              (set_sessions (insert "491" (mkSession 2 "Alice" "" "" 0 2000)) w))
    as (r & w' & Hrun & Hs & Hok).
  - reflexivity.
  - reflexivity.
  - reflexivity.
  - reflexivity.
  - exists r, w'. split; [exact Hrun|]. split.
    + rewrite Hs. apply lookup_insert_eq.
    + destruct Hok as [_ Hout]; [reflexivity|exact Hout].
Defined.

(** X4.  An image handled at step 3 completes the flow: the entry of the user
    is deleted, the completion record carries the name and the feedback
    of the session, the id of the image and the minutes since
    [createdAt], and the reply is the completion text with the name. *)
Theorem image_completes (message : Message) (i : Msg.image) (cur : Session) (w w0 : World) :
  getSession (from message) w = (Ok cur, w0) →
  step cur = 3 →
  image_of message = Some i →
  ∃ r w',
    handleIncomingMessage message w = (r, w')
    ∧ sessions w' = delete (from message) (sessions w)
    ∧ (next_send_ok w = true →
         r = Ok tt
         ∧ outbox w' = outbox w ++ [(from message, completed (name cur))]
         ∧ console w' = console w ++
             [LogFeedbackCompleted
                (FeedbackData.mk (clock w) (from message) (name cur) (feedback cur)
                   (Msg.id i) (Math_round_div (clock w - createdAt cur) (1000 * 60))
                   (clock w))]).
Proof.
  intros Hget Hstep Himage. apply getSession_current in Hget.
  pose proof (image_not_trigger message i Himage) as Htrig.
  destruct (turn_with message w None (completed (name cur))
              [LogFeedbackCompleted
                 (FeedbackData.mk (clock w) (from message) (name cur) (feedback cur)
                    (Msg.id i) (Math_round_div (clock w - createdAt cur) (1000 * 60))
                    (clock w))])
    as (r & w' & Hrun & Hs & Hok & _).
  { unfold transition. rewrite Htrig, <- Hget, Hstep, Himage. reflexivity. }
  exists r, w'. split; [exact Hrun|]. split; [exact Hs|exact Hok].
Qed.

Lemma image_completes_witness :
  let message := mkMessage "491" "image" None (Some (Msg.mkImage "img-42")) in
  let w := mkWorld {["491" := mkSession 3 "Alice" "Great service" "" 0 2000]}
             90000 [] [] [] in
  ∃ r w',
    handleIncomingMessage message w = (r, w')
    ∧ sessions w' !! "491" = None
    ∧ outbox w' = [("491", completed "Alice")].
Proof.
  intros message w.
  destruct (image_completes message (Msg.mkImage "img-42")
              (mkSession 3 "Alice" "Great service" "" 0 90000) w
              (set_sessions (insert "491" (mkSession 3 "Alice" "Great service" "" 0 90000)) w))
    as (r & w' & Hrun & Hs & Hok).
  - reflexivity.
  - reflexivity.
  - reflexivity.
  - exists r, w'. split; [exact Hrun|]. split.
    + rewrite Hs. apply lookup_delete_eq.
    + destruct Hok as (_ & Hout & _); [reflexivity|exact Hout].
Defined.

(** X2.  A user without a session who sends anything but the trigger is not
    greeted.  A session is created for the user; a text is taken as the
    name at once, leaving step 2 and the acknowledgment as reply, and any
    other message leaves step 1 and the "need text" prompt. *)
Theorem first_contact (message : Message) (w : World) :
  sessions w !! from message = None →
  is_trigger message = false →
  ∃ r w',
    handleIncomingMessage message w = (r, w')
    ∧ sessions w' !! from message
      = Some (match text_of message with
              | Some t => mkSession 2 (JsString.trim (Msg.body t)) "" "" (clock w) (clock w)
              | None => mkSession 1 "" "" "" (clock w) (clock w)
              end)
    ∧ (next_send_ok w = true →
         r = Ok tt
         ∧ outbox w' = outbox w ++
             [(from message,
               match text_of message with
               | Some t => nameReceived (JsString.trim (Msg.body t))
               | None => needText
               end)]).
Proof.
  intros Hnone Htrig.
  destruct (turn_with message w
              (Some (match text_of message with
                     | Some t => mkSession 2 (JsString.trim (Msg.body t)) "" ""
                                   (clock w) (clock w)
                     | None => mkSession 1 "" "" "" (clock w) (clock w)
                     end))
              (match text_of message with
               | Some t => nameReceived (JsString.trim (Msg.body t))
               | None => needText
               end) [])
    as (r & w' & Hrun & Hs & Hok & _).
  { unfold transition, current. rewrite Htrig, Hnone. simpl.
    by destruct (text_of message). }
  exists r, w'. split; [exact Hrun|]. split.
  - rewrite Hs. apply lookup_insert_eq.
  - intros Hnet. destruct (Hok Hnet) as (? & ? & _). by split.
Qed.

Lemma first_contact_witness :
  let message := mkMessage "491" "sticker" None None in
  ∃ r w',
    handleIncomingMessage message (initial 7 []) = (r, w')
    ∧ sessions w' !! "491" = Some (mkSession 1 "" "" "" 7 7)
    ∧ outbox w' = [("491", needText)].
Proof.
  intros message.
  destruct (first_contact message (initial 7 [])) as (r & w' & Hrun & Hs & Hok).
  - reflexivity.
  - reflexivity.
  - exists r, w'. split; [exact Hrun|]. split; [exact Hs|].
    destruct Hok as [_ Hout]; [reflexivity|exact Hout].
Defined.

(** X5.  A message that is not the trigger and finds a session whose step is
    not 1, 2 or 3 puts the session back to step 1 with empty fields,
    keeps [createdAt] and sends the greeting. *)
Theorem invalid_step_resets (message : Message) (cur : Session) (w w0 : World) :
  getSession (from message) w = (Ok cur, w0) →
  step cur ≠ 1 → step cur ≠ 2 → step cur ≠ 3 →
  is_trigger message = false →
  ∃ r w',
    handleIncomingMessage message w = (r, w')
    ∧ sessions w' = <[from message := mkSession 1 "" "" "" (createdAt cur) (clock w)]>
                      (sessions w)
    ∧ (next_send_ok w = true →
         r = Ok tt ∧ outbox w' = outbox w ++ [(from message, greeting)]).
Proof.
  intros Hget H1 H2 H3 Htrig. apply getSession_current in Hget.
  destruct (turn_with message w
              (Some (mkSession 1 "" "" "" (createdAt cur) (clock w))) greeting [])
    as (r & w' & Hrun & Hs & Hok & _).
  { unfold transition. rewrite Htrig, <- Hget.
    destruct (step cur) as [|[[p|p|]|[p|p|]|]|p]; done. }
  exists r, w'. split; [exact Hrun|]. split; [exact Hs|].
  intros Hnet. destruct (Hok Hnet) as (? & ? & _). by split.
Qed.

Lemma invalid_step_resets_witness :
  let message := mkMessage "491" "image" None (Some (Msg.mkImage "img-42")) in
  let w := mkWorld {["491" := mkSession 4 "Alice" "Great service" "" 0 2000]}
             5000 [] [] [] in
  ∃ r w',
    handleIncomingMessage message w = (r, w')
    ∧ sessions w' !! "491" = Some (mkSession 1 "" "" "" 0 5000)
    ∧ outbox w' = [("491", greeting)].
Proof.
  intros message w.
  destruct (invalid_step_resets message (mkSession 4 "Alice" "Great service" "" 0 5000) w
              (set_sessions (insert "491" (mkSession 4 "Alice" "Great service" "" 0 5000)) w))
    as (r & w' & Hrun & Hs & Hok).
  - reflexivity.
  - discriminate.
  - discriminate.
  - discriminate.
  - reflexivity.
  - exists r, w'. split; [exact Hrun|]. split.
    + rewrite Hs. apply lookup_insert_eq.
    + destruct Hok as [_ Hout]; [reflexivity|exact Hout].
Defined.

(** X6.  A message from a user whose session has expired is handled exactly as
    if the user had no session: same result, same world. *)
Theorem expired_is_new_user (message : Message) (stored : Session) (w : World) :
  sessions w !! from message = Some stored →
  clock w - lastActivity stored > 12 * 60 * 60 * 1000 →
  handleIncomingMessage message w
  = handleIncomingMessage message (set_sessions (delete (from message)) w).
Proof.
  intros Hs Hage.
  assert (Hold : expired_at (clock w) stored = true)
    by (apply bool_decide_eq_true; unfold sessionTimeout; lia).
  rewrite !handleIncomingMessage_run, !handleIncomingMessage_body_run.
  assert (Htr : transition (clock w) message (sessions w !! from message)
                = transition (clock w) message None).
  { unfold transition, current. by rewrite Hs, Hold. }
  assert (Hreply : reply_of message (set_sessions (delete (from message)) w)
                   = reply_of message w).
  { unfold reply_of. simpl. by rewrite lookup_delete_eq, Htr. }
  assert (Hbefore : before_reply message (set_sessions (delete (from message)) w)
                    = before_reply message w).
  { unfold before_reply. simpl. rewrite lookup_delete_eq, Htr.
    destruct (transition (clock w) message None) as [[e reply] printed].
    f_equal. destruct e as [s|]; simpl.
    - apply insert_delete_eq.
    - apply map_eq. intros k. destruct (decide (k = from message)) as [->|Hk].
      + by rewrite !lookup_delete_eq.
      + by rewrite !lookup_delete_ne. }
  by rewrite Hreply, Hbefore.
Qed.

Lemma expired_is_new_user_witness :
  let message := mkMessage "491" "text" (Some (Msg.mkText "Bob")) None in
  let w := mkWorld {["491" := mkSession 2 "Alice" "" "" 0 0]} (13 * 3600000) [] [] [] in
  handleIncomingMessage message w
  = handleIncomingMessage message (set_sessions (delete "491") w).
Proof.
  intros message w.
  apply (expired_is_new_user message (mkSession 2 "Alice" "" "" 0 0) w).
  - reflexivity.
  - vm_compute. reflexivity.
Defined.

(** X7.  Handling a message leaves the sessions of all other users, and the
    clock, as they are. *)
Theorem other_users_untouched (message : Message) (userPhone : string) (w : World) :
  userPhone ≠ from message →
  sessions (world_after (handleIncomingMessage message) w) !! userPhone
  = sessions w !! userPhone.
Proof.
  intros Hother.
  destruct (handleIncomingMessage_turn message w) as (r & w' & Hrun & Hsess & _).
  unfold world_after. rewrite Hrun. simpl. rewrite Hsess.
  unfold before_reply.
  destruct (transition (clock w) message (sessions w !! from message)) as [[e reply] printed].
  simpl. destruct e as [s|]; simpl.
  - by rewrite lookup_insert_ne.
  - by rewrite lookup_delete_ne.
Qed.

Lemma other_users_untouched_witness :
  let message := mkMessage "491" "text" (Some (Msg.mkText "hi")) None in
  let w := mkWorld {["491" := mkSession 2 "Alice" "" "" 0 0;
                     "492" := mkSession 3 "Bob" "fine" "" 0 0]} 5000 [] [] [] in
  sessions (world_after (handleIncomingMessage message) w) !! "492"
  = Some (mkSession 3 "Bob" "fine" "" 0 0).
Proof.
  intros message w.
  rewrite (other_users_untouched message "492" w); [reflexivity|discriminate].
Defined.

Lemma turn_accepted message w :
  next_send_ok w = true →
  handleIncomingMessage message w
  = (Ok tt, sent (from message) (reply_of message w) (before_reply message w)).
Proof.
  intros Hnet.
  rewrite handleIncomingMessage_run, handleIncomingMessage_body_run, sendTextMessage_run.
  destruct (before_reply_fields message w) as (_ & _ & Hdel).
  unfold next_send_ok in *. rewrite Hdel.
  by destruct (deliveries w) as [|[] ?].
Qed.

Lemma before_reply_deliveries message net w :
  before_reply message (with_deliveries net w)
  = with_deliveries net (before_reply message w).
Proof.
  unfold before_reply. simpl.
  by destruct (transition (clock w) message (sessions w !! from message)) as [[? ?] ?].
Qed.

(** X8.  When the sender rejects the reply, the turn has still been made: the
    sessions are those of the turn with a working sender.  The error is
    printed, the system-error text is tried once for the same user, a
    second rejection is only printed, and the first failure is what
    [handleIncomingMessage] throws. *)
Theorem rejected_send_rethrown (message : Message) (net : list bool) (w : World) :
  deliveries w = false :: net →
  let accepted := world_after (handleIncomingMessage message) (with_deliveries [] w) in
  ∃ w',
    handleIncomingMessage message w = (Throw SendError, w')
    ∧ sessions w' = sessions accepted
    ∧ outbox w' = outbox accepted ++ [(from message, systemError)]
    ∧ console w' = console accepted ++
        ErrHandlingMessage SendError ::
        match net with
        | false :: _ => [ErrSendingErrorMessage SendError]
        | _ => []
        end
    ∧ deliveries w' = tail net.
Proof.
  intros Hnet accepted. subst accepted.
  unfold world_after. rewrite (turn_accepted message (with_deliveries [] w)) by done.
  rewrite before_reply_deliveries. unfold reply_of. simpl.
  fold (reply_of message w).
  rewrite handleIncomingMessage_run, handleIncomingMessage_body_run, sendTextMessage_run.
  destruct (before_reply_fields message w) as (Hclock & Hout & Hdel).
  unfold next_send_ok at 1. rewrite Hdel, Hnet.
  eexists. split; [reflexivity|].
  unfold recovered, sent, next_send_ok. simpl. rewrite Hdel, Hnet. simpl.
  destruct net as [|[] net']; simpl; rewrite <- ?app_assoc; by repeat split.
Qed.

Lemma rejected_send_rethrown_witness :
  let message := mkMessage "491" "text" (Some (Msg.mkText "Alice")) None in
  let w := mkWorld {["491" := mkSession 1 "" "" "" 0 0]} 1000 [] [] [false; false] in
  ∃ w',
    handleIncomingMessage message w = (Throw SendError, w')
    ∧ sessions w' !! "491" = Some (mkSession 2 "Alice" "" "" 0 1000)
    ∧ outbox w' = [("491", nameReceived "Alice"); ("491", systemError)]
    ∧ console w' = [ErrHandlingMessage SendError; ErrSendingErrorMessage SendError].
Proof.
  intros message w.
  destruct (rejected_send_rethrown message [false] w) as (w' & Hrun & Hs & Hout & Hcon & _).
  - reflexivity.
  - exists w'. split; [exact Hrun|]. split; [|split].
    + rewrite Hs. reflexivity.
    + exact Hout.
    + exact Hcon.
Defined.

(** X9.  Every turn ends in one request to the sender when the reply is
    accepted and in two when it is rejected, all for the user the message
    came from; the turn throws exactly when the reply is rejected. *)
Theorem replies_go_to_sender (message : Message) (w : World) :
  ∃ r w' replies,
    handleIncomingMessage message w = (r, w')
    ∧ outbox w' = outbox w ++ replies
    ∧ Forall (λ reply, reply.1 = from message) replies
    ∧ (if next_send_ok w
       then r = Ok tt ∧ length replies = 1%nat
       else r = Throw SendError ∧ length replies = 2%nat).
Proof.
  destruct (handleIncomingMessage_turn message w) as (r & w' & Hrun & _ & Hok & Hko).
  destruct (next_send_ok w).
  - destruct (Hok eq_refl) as (-> & Hout & _).
    eexists _, _, _. split; [exact Hrun|]. split; [exact Hout|].
    split; [|done]. by repeat constructor.
  - destruct (Hko eq_refl) as (-> & Hout).
    eexists _, _, _. split; [exact Hrun|]. split; [exact Hout|].
    split; [|done]. by repeat constructor.
Qed.

(** ** Payloads *)

Lemma for_of_app {A} (xs ys : list A) (body : A → M unit) w :
  for_of (xs ++ ys) body w = (for_of xs body ;; for_of ys body) w.
Proof.
  revert w. induction xs as [|x xs IH]; intros w; simpl.
  - unfold mbind, M_bind, mret, M_ret. reflexivity.
  - unfold mbind, M_bind. destruct (body x w) as [[[]|e] w1]; [|done].
    rewrite IH. reflexivity.
Qed.

Lemma for_of_statuses statuses w : for_of statuses handleMessageStatus w = (Ok tt, w).
Proof. apply for_of_skip. done. Qed.

Lemma processChange_run change w :
  complete_change change →
  processChange change w = for_of (change_messages change) handleIncomingMessage w.
Proof.
  intros Hvalue. unfold processChange, change_messages.
  destruct (decide (field change = Some "messages")) as [Hfield|Hfield].
  - rewrite !bool_decide_eq_true_2 by done.
    destruct (Hvalue Hfield) as [v ->]. simpl.
    unfold property_of. unfold mbind, M_bind, mret, M_ret. simpl.
    assert (Hstatuses : ∀ w1, match statuses v with
                              | Some ss => for_of ss handleMessageStatus
                              | None => mret tt
                              end w1 = (Ok tt, w1)).
    { intros w1. destruct (statuses v); [apply for_of_statuses|done]. }
    destruct (messages v) as [ms|]; simpl.
    + destruct (for_of ms handleIncomingMessage w) as [[[]|e] w1]; [|done].
      apply Hstatuses.
    + apply Hstatuses.
  - by rewrite !bool_decide_eq_false_2.
Qed.

Lemma for_of_concat {A B} (f : A → list B) (xs : list A) (body : B → M unit)
    (visit : A → M unit) w :
  Forall (λ x, ∀ w1, visit x w1 = for_of (f x) body w1) xs →
  for_of xs visit w = for_of (concat (f <$> xs)) body w.
Proof.
  intros Hxs. revert w. induction Hxs as [|x xs Hx Hxs IH]; intros w; simpl; [done|].
  rewrite for_of_app. unfold mbind, M_bind. rewrite Hx.
  destruct (for_of (f x) body w) as [[[]|e] w1]; [|done]. apply IH.
Qed.

(** A payload of the recognised object is processed as the sequence of
    its messages. *)
Lemma processWebhookPayload_flat payload w :
  object payload = Some "whatsapp_business_account" →
  complete_payload payload →
  processWebhookPayload payload w
  = for_of (payload_messages payload) handleIncomingMessage w.
Proof.
  intros Hobj (entries & Hentries & Hcomplete).
  unfold processWebhookPayload, payload_messages.
  rewrite bool_decide_eq_false_2 by (intros H; by apply H).
  rewrite Hentries. unfold iterate at 1, mbind at 1, M_bind at 1, mret, M_ret. simpl.
  apply for_of_concat.
  eapply Forall_impl; [exact Hcomplete|]. intros e (cs & Hcs & Hchanges) w1.
  unfold entry_messages. rewrite Hcs. unfold iterate, mbind at 1, M_bind at 1, mret, M_ret.
  simpl. apply for_of_concat.
  eapply Forall_impl; [exact Hchanges|]. intros c Hc w2. by apply processChange_run.
Qed.

Lemma for_of_accepted messages : ∀ w,
  deliveries w = [] →
  for_of messages handleIncomingMessage w = (Ok tt, turns messages w)
  ∧ deliveries (turns messages w) = [].
Proof.
  induction messages as [|message messages IH]; intros w Hnet; simpl; [done|].
  unfold mbind, M_bind, world_after.
  rewrite turn_accepted by (unfold next_send_ok; by rewrite Hnet). simpl.
  apply IH. simpl.
  destruct (before_reply_fields message w) as (_ & _ & ->). by rewrite Hnet.
Qed.

(** X10.  With a sender that accepts every reply, a payload of the recognised
    object in which every list is there is processed without an error,
    and the world it leaves is the one reached by handling its messages
    one after the other, in the order of the document; the status updates
    of the payload change nothing. *)
Theorem payload_handles_messages (payload : Payload) (w : World) :
  object payload = Some "whatsapp_business_account" →
  complete_payload payload →
  deliveries w = [] →
  processWebhookPayload payload w = (Ok tt, turns (payload_messages payload) w).
Proof.
  intros Hobj Hcomplete Hnet.
  rewrite processWebhookPayload_flat by done.
  by apply for_of_accepted.
Qed.

Lemma payload_handles_messages_witness :
  let alice := mkMessage "491" "text" (Some (Msg.mkText "Alice")) None in
  let bob := mkMessage "492" "text" (Some (Msg.mkText "Bob")) None in
  let read := Status.mk "wamid.1" "491" "read" "1700000000" in
  let payload :=
    mkPayload (Some "whatsapp_business_account")
      (Some [mkEntry (Some [mkChange (Some "messages")
                              (Some (mkValue (Some [alice]) (Some [read])));
                            mkChange (Some "account_update") None]);
             mkEntry (Some [mkChange (Some "messages")
                              (Some (mkValue (Some [bob]) None))])]) in
  ∃ w',
    processWebhookPayload payload (initial 0 []) = (Ok tt, w')
    ∧ sessions w' !! "491" = Some (mkSession 2 "Alice" "" "" 0 0)
    ∧ sessions w' !! "492" = Some (mkSession 2 "Bob" "" "" 0 0)
    ∧ outbox w' = [("491", nameReceived "Alice"); ("492", nameReceived "Bob")].
Proof.
  intros alice bob read payload.
  eexists. split.
  - apply (payload_handles_messages payload (initial 0 [])).
    + reflexivity.
    + eexists. split; [reflexivity|].
      repeat constructor; eexists; (split; [reflexivity|]); repeat constructor.
      * intros _. by eexists.
      * discriminate.
      * intros _. by eexists.
    + reflexivity.
  - vm_compute. repeat split; reflexivity.
Defined.

Lemma turn_sessions message w :
  sessions (world_after (handleIncomingMessage message) w)
  = store_put (from message) (transition (clock w) message (sessions w !! from message)).1.1
      (sessions w).
Proof.
  destruct (handleIncomingMessage_turn message w) as (r & w' & Hrun & Hsess & _).
  unfold world_after. rewrite Hrun. simpl. rewrite Hsess. unfold before_reply.
  by destruct (transition (clock w) message (sessions w !! from message)) as [[? ?] ?].
Qed.

Lemma turn_clock message w : clock (world_after (handleIncomingMessage message) w) = clock w.
Proof.
  unfold world_after.
  rewrite handleIncomingMessage_run, handleIncomingMessage_body_run, sendTextMessage_run.
  destruct (before_reply_fields message w) as (Hc & _ & _).
  destruct (next_send_ok (before_reply message w)); simpl; [done|].
  unfold recovered. cbv zeta.
  match goal with |- context [if ?b then _ else _] => destruct b end; done.
Qed.

Lemma for_of_accepted_prefix before : ∀ w net,
  deliveries w = replicate (length before) true ++ net →
  for_of before handleIncomingMessage w = (Ok tt, turns before w)
  ∧ deliveries (turns before w) = net.
Proof.
  induction before as [|message before IH]; intros w net Hnet; simpl; [done|].
  simpl in Hnet.
  unfold mbind, M_bind, world_after.
  rewrite turn_accepted by (unfold next_send_ok; by rewrite Hnet). simpl.
  apply IH. simpl.
  destruct (before_reply_fields message w) as (_ & _ & ->). by rewrite Hnet.
Qed.

Lemma turns_sessions messages : ∀ w1 w2,
  sessions w1 = sessions w2 → clock w1 = clock w2 →
  sessions (turns messages w1) = sessions (turns messages w2).
Proof.
  induction messages as [|message messages IH]; intros w1 w2 Hs Hc; simpl; [done|].
  apply IH.
  - rewrite !turn_sessions. by rewrite Hs, Hc.
  - rewrite !turn_clock. exact Hc.
Qed.

(** X11.  Processing stops at the first reply that the sender rejects.
    When the replies to the messages [before] are accepted and the reply
    to [message] is rejected, the result is the failure of the turn for
    [message], made in the world that the turns for [before] lead to; the
    messages [rest] behind it are not handled: the sessions left are
    those of handling [before] and [message] alone. *)
Theorem payload_stops_at_rejected_send (payload : Payload) (before : list Message)
    (message : Message) (rest : list Message) (net : list bool) (w : World) :
  object payload = Some "whatsapp_business_account" →
  complete_payload payload →
  payload_messages payload = before ++ message :: rest →
  deliveries w = replicate (length before) true ++ false :: net →
  processWebhookPayload payload w = handleIncomingMessage message (turns before w)
  ∧ (processWebhookPayload payload w).1 = Throw SendError
  ∧ sessions (processWebhookPayload payload w).2
    = sessions (turns (before ++ [message]) (with_deliveries [] w)).
Proof.
  intros Hobj Hcomplete Hmessages Hnet.
  destruct (for_of_accepted_prefix before w (false :: net) Hnet) as [Hbefore Hrest].
  destruct (handleIncomingMessage_turn message (turns before w))
    as (r & w' & Hrun & _ & _ & Hko).
  destruct Hko as [-> _]; [unfold next_send_ok; by rewrite Hrest|].
  assert (Heq : processWebhookPayload payload w
                = handleIncomingMessage message (turns before w)).
  { rewrite processWebhookPayload_flat, Hmessages by done.
    rewrite for_of_app. unfold mbind at 1, M_bind at 1. rewrite Hbefore.
    simpl. unfold mbind, M_bind. by rewrite Hrun. }
  rewrite Heq, Hrun. split; [reflexivity|]. split; [reflexivity|]. simpl.
  unfold turns at 1. rewrite foldl_app. simpl. fold (turns before (with_deliveries [] w)).
  pose proof (turn_sessions message (turns before w)) as Hturn.
  unfold world_after in Hturn. rewrite Hrun in Hturn. simpl in Hturn.
  rewrite Hturn, turn_sessions.
  assert (Hc : clock (turns before w) = clock (turns before (with_deliveries [] w))).
  { clear. generalize (eq_refl : clock w = clock (with_deliveries [] w)).
    generalize (with_deliveries [] w). revert w.
    induction before as [|m before IH]; intros w1 w2 Hc; simpl; [done|].
    apply IH. by rewrite !turn_clock. }
  by rewrite (turns_sessions before w (with_deliveries [] w)), Hc.
Qed.

Lemma payload_stops_at_rejected_send_witness :
  let alice := mkMessage "491" "text" (Some (Msg.mkText "Alice")) None in
  let bob := mkMessage "492" "text" (Some (Msg.mkText "Bob")) None in
  let carol := mkMessage "493" "text" (Some (Msg.mkText "Carol")) None in
  let payload :=
    mkPayload (Some "whatsapp_business_account")
      (Some [mkEntry (Some [mkChange (Some "messages")
                              (Some (mkValue (Some [alice; bob; carol]) None))])]) in
  let w := initial 0 [true; false] in
  (processWebhookPayload payload w).1 = Throw SendError
  ∧ sessions (processWebhookPayload payload w).2 !! "491"
    = Some (mkSession 2 "Alice" "" "" 0 0)
  ∧ sessions (processWebhookPayload payload w).2 !! "492"
    = Some (mkSession 2 "Bob" "" "" 0 0)
  ∧ sessions (processWebhookPayload payload w).2 !! "493" = None.
Proof.
  intros alice bob carol payload w.
  destruct (payload_stops_at_rejected_send payload [alice] bob [carol] [] w)
    as (_ & Hthrow & Hs).
  - reflexivity.
  - eexists. split; [reflexivity|].
    repeat constructor. eexists. split; [reflexivity|].
    repeat constructor. intros _. by eexists.
  - reflexivity.
  - reflexivity.
  - split; [exact Hthrow|]. rewrite Hs. vm_compute. repeat split; reflexivity.
Defined.

(** X12.  The simulations make one turn of the dispatcher for [phoneNumber],
    with a text or with an image, and return [success: true] with the
    time of the clock; when the turn throws, the simulation throws the
    same error and returns nothing. *)
Theorem simulations_run_one_turn (phoneNumber text : string) (imageId : option string)
    (w : World) :
  let message := mkMessage phoneNumber "text" (Some (Msg.mkText text)) None in
  let picture := mkMessage phoneNumber "image" None
                   (Some (Msg.mkImage (default "test-image-123" imageId))) in
  simulateWebhook text phoneNumber w
  = (match (handleIncomingMessage message w).1 with
     | Ok _ => Ok (TextSimulation.mk true "Feedback collection test completed"
                     text phoneNumber (clock w))
     | Throw e => Throw e
     end, (handleIncomingMessage message w).2)
  ∧ simulateImageWebhook phoneNumber imageId w
    = (match (handleIncomingMessage picture w).1 with
       | Ok _ => Ok (ImageSimulation.mk true "Image webhook test completed"
                       phoneNumber (default "test-image-123" imageId) (clock w))
       | Throw e => Throw e
       end, (handleIncomingMessage picture w).2).
Proof.
  intros message picture.
  assert (Hclock : ∀ m, clock (handleIncomingMessage m w).2 = clock w).
  { intros m. rewrite handleIncomingMessage_run, handleIncomingMessage_body_run,
      sendTextMessage_run.
    destruct (before_reply_fields m w) as (Hc & _ & _).
    destruct (next_send_ok (before_reply m w)); simpl; [done|].
    unfold recovered. cbv zeta.
    match goal with |- context [if ?b then _ else _] => destruct b end; done. }
  split.
  - unfold simulateWebhook. cbv zeta. unfold mbind at 1, M_bind at 1.
    rewrite processWebhookPayload_flat.
    + change (payload_messages (textPayload text phoneNumber)) with [message]. simpl.
      unfold mbind at 1, M_bind at 1. specialize (Hclock message).
      destruct (handleIncomingMessage message w) as [[[]|e] w1]; simpl in *; [|done].
      unfold mret, M_ret, mbind, M_bind, newDate. simpl. by rewrite Hclock.
    + reflexivity.
    + eexists. split; [reflexivity|].
      repeat constructor. eexists. split; [reflexivity|].
      repeat constructor. intros _. by eexists.
  - unfold simulateImageWebhook. cbv zeta. unfold mbind at 1, M_bind at 1.
    rewrite processWebhookPayload_flat.
    + change (payload_messages (imagePayload phoneNumber (default "test-image-123" imageId)))
        with [picture]. simpl.
      unfold mbind at 1, M_bind at 1. specialize (Hclock picture).
      destruct (handleIncomingMessage picture w) as [[[]|e] w1]; simpl in *; [|done].
      unfold mret, M_ret, mbind, M_bind, newDate. simpl. by rewrite Hclock.
    + reflexivity.
    + eexists. split; [reflexivity|].
      repeat constructor. eexists. split; [reflexivity|].
      repeat constructor. intros _. by eexists.
Qed.

(** ** More on the session store *)

(** X13.  A session that was just created is found again as long as no more
    than 12 hours pass: step 1, empty fields, the [createdAt] of the
    creation, [lastActivity] moved to the time of the read. *)
Theorem create_then_get (userPhone : string) (later : Z) (w : World) :
  later - clock w ≤ 12 * 60 * 60 * 1000 →
  ∃ w',
    getSession userPhone (at_time later (world_after (createSession userPhone) w))
    = (Ok (mkSession 1 "" "" "" (clock w) later), w')
    ∧ sessions w' = <[userPhone := mkSession 1 "" "" "" (clock w) later]> (sessions w).
Proof.
  intros Hage. unfold world_after. rewrite createSession_run, getSession_run. simpl.
  rewrite lookup_insert_eq.
  assert (expired_at later (fresh (clock w)) = false) as ->
    by (apply bool_decide_eq_false; unfold sessionTimeout; simpl; lia).
  eexists. split; [reflexivity|]. simpl. apply insert_insert_eq.
Qed.

Lemma create_then_get_witness :
  ∃ w', getSession "491" (at_time 43200000 (world_after (createSession "491") (initial 0 [])))
        = (Ok (mkSession 1 "" "" "" 0 43200000), w').
Proof.
  destruct (create_then_get "491" 43200000 (initial 0 [])) as (w' & Hrun & _).
  - vm_compute. discriminate.
  - exists w'. exact Hrun.
Defined.

(** X14.  [updateSession] does not look at the age of the session: on a session
    that has expired, where [getSession] would start over, it writes the
    updates into the old session, keeps the other fields and [createdAt],
    and sets [lastActivity] to the clock, so that the [getSession] that
    follows finds that session. *)
Theorem update_revives_expired (userPhone : string) (updates : Updates.t)
    (stored : Session) (w : World) :
  sessions w !! userPhone = Some stored →
  clock w - lastActivity stored > 12 * 60 * 60 * 1000 →
  (getSession userPhone w).1 = Ok (mkSession 1 "" "" "" (clock w) (clock w))
  ∧ ∃ s w',
      updateSession userPhone updates w = (Ok s, w')
      ∧ s = mkSession (default (step stored) (Updates.step updates))
              (default (name stored) (Updates.name updates))
              (default (feedback stored) (Updates.feedback updates))
              (default (profileImageUrl stored) (Updates.profileImageUrl updates))
              (createdAt stored) (clock w)
      ∧ console w' = console w
      ∧ getSession userPhone w' = (Ok s, w').
Proof.
  intros Hs Hage. split.
  - rewrite getSession_run. simpl. rewrite Hs.
    unfold expired_at, sessionTimeout. by rewrite bool_decide_eq_true_2.
  - rewrite updateSession_run, Hs. cbv zeta.
    eexists _, _. split; [reflexivity|]. split; [reflexivity|]. split; [reflexivity|].
    rewrite getSession_run. simpl. rewrite lookup_insert_eq.
    rewrite not_expired_now by reflexivity.
    unfold set_sessions. simpl. by rewrite insert_insert_eq.
Qed.

Lemma update_revives_expired_witness :
  let w := mkWorld {["491" := mkSession 2 "Alice" "" "" 0 0]} (13 * 3600000) [] [] [] in
  ∃ w', updateSession "491" (Updates.mk None None (Some "fine") None) w
        = (Ok (mkSession 2 "Alice" "fine" "" 0 (13 * 3600000)), w').
Proof.
  intros w.
  destruct (update_revives_expired "491" (Updates.mk None None (Some "fine") None)
              (mkSession 2 "Alice" "" "" 0 0) w) as (_ & s & w' & Hrun & -> & _).
  - reflexivity.
  - vm_compute. reflexivity.
  - exists w'. exact Hrun.
Defined.

(** X15.  [advanceStep] for a user without a session, or with an expired one,
    creates a session and moves it on at once: the user is left at step 2
    with an empty name, and no error is written. *)
Theorem advance_creates_at_step_2 (userPhone : string) (w : World) :
  (sessions w !! userPhone = None
   ∨ ∃ stored, sessions w !! userPhone = Some stored
               ∧ clock w - lastActivity stored > 12 * 60 * 60 * 1000) →
  ∃ w',
    advanceStep userPhone w = (Ok (mkSession 2 "" "" "" (clock w) (clock w)), w')
    ∧ sessions w' = <[userPhone := mkSession 2 "" "" "" (clock w) (clock w)]> (sessions w)
    ∧ console w' = console w.
Proof.
  intros Hcase. rewrite advanceStep_run. cbv zeta.
  assert (match sessions w !! userPhone with
          | Some stored =>
              if expired_at (clock w) stored then fresh (clock w)
              else set_lastActivity (clock w) stored
          | None => fresh (clock w)
          end = fresh (clock w)) as ->.
  { destruct Hcase as [-> | (stored & -> & Hage)]; [done|].
    unfold expired_at, sessionTimeout. by rewrite bool_decide_eq_true_2. }
  eexists. split; [reflexivity|]. split; reflexivity.
Qed.

Lemma advance_creates_at_step_2_witness :
  ∃ w', advanceStep "491" (initial 5 []) = (Ok (mkSession 2 "" "" "" 5 5), w').
Proof.
  destruct (advance_creates_at_step_2 "491" (initial 5 [])) as (w' & Hrun & _).
  - left. reflexivity.
  - exists w'. exact Hrun.
Defined.

Lemma size_filter_entries (P : string * Session → Prop) `{!∀ e, Decision (P e)}
    (m : gmap string Session) :
  length (filter P (map_to_list m)) = size (filter P m).
Proof.
  rewrite (map_filter_alt P m).
  rewrite <- length_map_to_list.
  symmetry. apply Permutation_length, map_to_list_to_map.
  eapply sublist_NoDup; [apply (NoDup_fst_map_to_list m)|].
  apply fmap_sublist, sublist_filter.
Qed.

Lemma cleanupExpiredSessions_run w :
  cleanupExpiredSessions w
  = (Ok (Z.of_nat (size (filter (is_old (clock w)) (sessions w)))),
     set_sessions (filter (λ e, ¬ is_old (clock w) e)) w).
Proof.
  unfold cleanupExpiredSessions, mbind, M_bind, newDate, sessions_entries.
  rewrite cleanup_loop_run. unfold set_sessions. simpl.
  by rewrite size_filter_entries, swept_filter.
Qed.

(** X16.  After a sweep no session of the map is expired, and a second sweep at
    the same time removes nothing and returns 0.  The sweep sends
    nothing. *)
Theorem cleanup_twice (w : World) :
  ∃ n w',
    cleanupExpiredSessions w = (Ok n, w')
    ∧ 0 ≤ n ≤ Z.of_nat (size (sessions w))
    ∧ map_Forall (λ _ s, expired_at (clock w) s = false) (sessions w')
    ∧ cleanupExpiredSessions w' = (Ok 0, w')
    ∧ outbox w' = outbox w.
Proof.
  rewrite cleanupExpiredSessions_run.
  eexists _, _. split; [reflexivity|].
  split.
  { pose proof (map_size_filter (is_old (clock w)) (sessions w)). lia. }
  assert (Hlive : map_Forall (λ _ s, expired_at (clock w) s = false)
                    (filter (λ e, ¬ is_old (clock w) e) (sessions w))).
  { intros u s Hs. apply map_lookup_filter_Some in Hs as [_ Hs].
    unfold is_old in Hs. simpl in Hs. by apply not_true_is_false. }
  split; [exact Hlive|]. split; [|done].
  rewrite cleanupExpiredSessions_run. unfold set_sessions. simpl.
  f_equal.
  - f_equal.
    assert (filter (is_old (clock w)) (filter (λ e, ¬ is_old (clock w) e) (sessions w)) = ∅)
      as ->; [|by rewrite map_size_empty].
    apply map_eq. intros u. rewrite lookup_empty.
    apply map_lookup_filter_None_2. right. intros s Hs Hold.
    specialize (Hlive u s Hs). unfold is_old in Hold. simpl in *. congruence.
  - f_equal. apply map_filter_id. intros u s Hs Hold.
    specialize (Hlive u s Hs). unfold is_old in Hold. simpl in *. congruence.
Qed.

Lemma count_steps_lookup values : ∀ (counts : gmap Z Z) k,
  count_steps values counts !! k
  = let n := length (filter (λ s, step s = k) values) in
    if decide (n = 0%nat) then counts !! k
    else Some (default 0 (counts !! k) + Z.of_nat n).
Proof.
  induction values as [|s values IH]; intros counts k; [done|].
  simpl. rewrite IH. cbv zeta. rewrite filter_cons.
  destruct (decide (step s = k)) as [->|Hk].
  - rewrite lookup_insert_eq. simpl.
    destruct (decide (length (filter (λ s0, step s0 = k) values) = 0%nat)) as [Hn|Hn];
      f_equal; lia.
  - rewrite lookup_insert_ne by done. reflexivity.
Qed.

Lemma total_of_count k (counts : gmap Z Z) :
  total_of (<[k := default 0 (counts !! k) + 1]> counts) = total_of counts + 1.
Proof.
  unfold total_of.
  destruct (counts !! k) as [n|] eqn:Hk; simpl.
  - rewrite <- insert_delete_eq.
    rewrite map_fold_insert_L; [| intros; lia | apply lookup_delete_eq].
    rewrite (map_fold_delete_L _ _ k n counts); [lia | intros; lia | done].
  - rewrite map_fold_insert_L; [lia | intros; lia | done].
Qed.

Lemma count_steps_total values : ∀ counts : gmap Z Z,
  total_of (count_steps values counts) = total_of counts + Z.of_nat (length values).
Proof.
  induction values as [|s values IH]; intros counts; simpl; [lia|].
  rewrite IH, total_of_count. lia.
Qed.

Lemma length_filter_values (P : Session → Prop) `{!∀ s, Decision (P s)}
    (entries : list (string * Session)) :
  length (filter P entries.*2) = length (filter (λ e, P e.2) entries).
Proof.
  induction entries as [|[u s] entries IH]; [done|].
  csimpl. rewrite !filter_cons. simpl.
  destruct (decide (P s)); simpl; by rewrite IH.
Qed.

(** X17.  [getSessionStats] changes nothing.  Its total is the number of
    entries of the map, expired or not; for every step its table has the
    number of sessions at that step, and no property for a step that no
    session is at; and the counts of the table add up to the total. *)
Theorem stats_add_up (w : World) :
  ∃ stats,
    getSessionStats w = (Ok stats, w)
    ∧ Stats.totalActiveSessions stats = Z.of_nat (size (sessions w))
    ∧ (∀ k, Stats.sessionsByStep stats !! k
            = let n := size (filter (at_step k) (sessions w)) in
              if decide (n = 0%nat) then None else Some (Z.of_nat n))
    ∧ total_of (Stats.sessionsByStep stats) = Stats.totalActiveSessions stats
    ∧ Stats.timestamp stats = clock w.
Proof.
  unfold getSessionStats. eexists. split; [reflexivity|]. simpl.
  split; [reflexivity|]. split; [|split; [|reflexivity]].
  - intros k. rewrite count_steps_lookup. cbv zeta.
    rewrite (length_filter_values (λ s, step s = k)).
    rewrite (size_filter_entries (at_step k)). rewrite lookup_empty. simpl.
    destruct (decide (size (filter (at_step k) (sessions w)) = 0%nat)); [done|].
    f_equal.
  - rewrite count_steps_total, length_fmap, length_map_to_list.
    unfold total_of. rewrite map_fold_empty. lia.
Qed.

(** ** What the dispatcher keeps *)

Lemma transition_step_range now message found s' :
  (transition now message found).1.1 = Some s' → 1 ≤ step s' ≤ 3.
Proof.
  unfold transition. destruct (is_trigger message).
  { intros [= <-]. simpl. lia. }
  destruct (current now found) as [st nm fb im cr la]. simpl.
  destruct st as [|[[p|p|]|[p|p|]|]|p]; simpl;
    try (intros [= <-]; simpl; lia).
  - destruct (image_of message); [done|]. intros [= <-]. simpl. lia.
  - destruct (text_of message); intros [= <-]; simpl; lia.
  - destruct (text_of message); intros [= <-]; simpl; lia.
Qed.

Lemma store_put_lookup userPhone e (m : gmap string Session) u s :
  store_put userPhone e m !! u = Some s →
  (u = userPhone ∧ e = Some s) ∨ (u ≠ userPhone ∧ m !! u = Some s).
Proof.
  destruct (decide (u = userPhone)) as [->|Hu]; destruct e as [s'|]; simpl.
  - rewrite lookup_insert_eq. intros [= ->]. by left.
  - by rewrite lookup_delete_eq.
  - rewrite lookup_insert_ne by done. by right.
  - rewrite lookup_delete_ne by done. by right.
Qed.

(** X18.  Whatever the messages are, the dispatcher only ever stores the steps
    1, 2 and 3: in a world reached by handled messages no session is at
    step 4 or at any other step, so the branch that resets a session with
    an invalid step is never taken there. *)
Theorem dispatcher_steps_in_range (w : World) :
  reachable (λ _, True) w →
  ∀ userPhone s, sessions w !! userPhone = Some s → 1 ≤ step s ≤ 3.
Proof.
  induction 1 as [now net|w now net message Hreach IH _]; intros userPhone s Hs.
  - simpl in Hs. by rewrite lookup_empty in Hs.
  - rewrite turn_sessions in Hs. simpl in Hs.
    apply store_put_lookup in Hs as [[_ He]|[_ Hold]].
    + by apply transition_step_range in He.
    + by apply (IH userPhone).
Qed.

Lemma dispatcher_steps_in_range_witness :
  let blank := mkMessage "491" "text" (Some (Msg.mkText " ")) None in
  let w1 := world_after (handleIncomingMessage blank)
              (with_deliveries [] (at_time 0 (initial 0 []))) in
  let w2 := world_after (handleIncomingMessage blank)
              (with_deliveries [] (at_time 10 w1)) in
  sessions w2 !! "491" = Some (mkSession 3 "" "" "" 0 10)
  ∧ 1 ≤ step (mkSession 3 "" "" "" 0 10) ≤ 3.
Proof.
  intros blank w1 w2.
  assert (Hs : sessions w2 !! "491" = Some (mkSession 3 "" "" "" 0 10))
    by (vm_compute; reflexivity).
  split; [exact Hs|].
  apply (dispatcher_steps_in_range w2) with (userPhone := "491"); [|exact Hs].
  apply reachable_turn; [apply reachable_turn; [apply reachable_initial|]|]; exact I.
Defined.

(** X19.  A turn moves a session forward by at most one step and never loses
    what was collected.  For a session that has not expired, at step 1, 2
    or 3, and a message that is not the trigger: either the entry is gone,
    which takes step 3 and an image, or the session has the same
    [createdAt], a step that is the old one or the next, the name it had
    from step 2 on and the feedback it had at step 3. *)
Theorem turn_moves_forward (message : Message) (stored : Session) (w : World) :
  sessions w !! from message = Some stored →
  clock w - lastActivity stored ≤ 12 * 60 * 60 * 1000 →
  is_trigger message = false →
  1 ≤ step stored ≤ 3 →
  match sessions (world_after (handleIncomingMessage message) w) !! from message with
  | None => step stored = 3 ∧ is_Some (image_of message)
  | Some s =>
      createdAt s = createdAt stored
      ∧ step stored ≤ step s ≤ step stored + 1
      ∧ (step stored > 1 → name s = name stored)
      ∧ (step stored > 2 → feedback s = feedback stored)
  end.
Proof.
  intros Hs Hage Htrig Hstep.
  assert (Hlive : expired_at (clock w) stored = false)
    by (apply bool_decide_eq_false; unfold sessionTimeout; lia).
  rewrite turn_sessions. unfold transition, current.
  rewrite Htrig, Hs, Hlive.
  destruct stored as [st nm fb im cr la]. simpl in *.
  assert (st = 1 ∨ st = 2 ∨ st = 3) as [-> | [-> | ->]] by lia; simpl.
  - destruct (text_of message); simpl; rewrite lookup_insert_eq; simpl;
      (split; [done|split; [lia|split; intros; (done || (exfalso; lia))]]).
  - destruct (text_of message); simpl; rewrite lookup_insert_eq; simpl;
      (split; [done|split; [lia|split; intros; (done || (exfalso; lia))]]).
  - destruct (image_of message); simpl.
    + rewrite lookup_delete_eq. by split.
    + rewrite lookup_insert_eq. simpl. split; [done|]. split; [lia|]. by split.
Qed.

Lemma turn_moves_forward_witness :
  let message := mkMessage "491" "text" (Some (Msg.mkText "Great service")) None in
  let stored := mkSession 2 "Alice" "" "" 0 1000 in
  let w := mkWorld {["491" := stored]} 2000 [] [] [] in
  ∃ s, sessions (world_after (handleIncomingMessage message) w) !! "491" = Some s
       ∧ name s = "Alice" ∧ createdAt s = 0.
Proof.
  intros message stored w.
  pose proof (turn_moves_forward message stored w eq_refl) as Hturn.
  assert (Hs : sessions (world_after (handleIncomingMessage message) w) !! "491"
               = Some (mkSession 3 "Alice" "Great service" "" 0 2000))
    by (vm_compute; reflexivity).
  change (from message) with "491" in Hturn. rewrite Hs in Hturn.
  destruct Hturn as (Hcreated & _ & Hname & _).
  - vm_compute. discriminate.
  - reflexivity.
  - simpl. lia.
  - eexists. split; [reflexivity|]. split; [apply Hname; simpl; lia|exact Hcreated].
Defined.

Lemma turn_console message w :
  ∃ errors,
    console (world_after (handleIncomingMessage message) w)
    = console w ++ (transition (clock w) message (sessions w !! from message)).2 ++ errors
    ∧ Forall sound_line errors.
Proof.
  unfold world_after.
  rewrite handleIncomingMessage_run, handleIncomingMessage_body_run, sendTextMessage_run.
  assert (Hcon : console (before_reply message w)
                 = console w ++ (transition (clock w) message (sessions w !! from message)).2).
  { unfold before_reply.
    by destruct (transition (clock w) message (sessions w !! from message)) as [[? ?] ?]. }
  destruct (next_send_ok (before_reply message w)); simpl.
  - exists []. rewrite Hcon, app_nil_r. by split.
  - unfold recovered. cbv zeta.
    match goal with |- context [if ?b then _ else _] => destruct b end; simpl.
    + exists [ErrHandlingMessage SendError]. rewrite Hcon, <- app_assoc.
      split; [done|]. by repeat constructor.
    + exists [ErrHandlingMessage SendError; ErrSendingErrorMessage SendError].
      rewrite Hcon, <- !app_assoc. split; [done|]. by repeat constructor.
Qed.

Lemma Math_round_div_nonneg num den : 0 ≤ num → 0 < den → 0 ≤ Math_round_div num den.
Proof. intros Hnum Hden. unfold Math_round_div. apply Z.div_pos; lia. Qed.

Lemma current_in_order now found :
  (∀ s, found = Some s → createdAt s ≤ lastActivity s ≤ now) →
  in_order now (current now found) .
Proof.
  intros Hfound. unfold current, in_order.
  destruct found as [stored|]; [|simpl; lia].
  destruct (expired_at now stored); simpl; [lia|].
  specialize (Hfound stored eq_refl). lia.
Qed.

Lemma transition_in_order now message found :
  (∀ s, found = Some s → createdAt s ≤ lastActivity s ≤ now) →
  (∀ s', (transition now message found).1.1 = Some s' → in_order now s')
  ∧ Forall sound_line (transition now message found).2.
Proof.
  intros Hfound. apply current_in_order in Hfound.
  unfold transition. destruct (is_trigger message).
  { simpl. split; [|done]. intros s' [= <-]. unfold in_order. simpl. lia. }
  destruct (current now found) as [st nm fb im cr la].
  unfold in_order in *. simpl in *.
  destruct st as [|[[p|p|]|[p|p|]|]|p]; simpl;
    try (split; [intros s' [= <-]; simpl; lia|done]).
  - destruct (image_of message); simpl.
    + split; [done|]. repeat constructor. simpl. apply Math_round_div_nonneg; lia.
    + split; [intros s' [= <-]; simpl; lia|done].
  - destruct (text_of message); simpl; (split; [intros s' [= <-]; simpl; lia|done]).
  - destruct (text_of message); simpl; (split; [intros s' [= <-]; simpl; lia|done]).
Qed.

(** X20.  While the clock never goes back, in every world reached by turns of
    the dispatcher and sweeps each session has [createdAt] no later than
    [lastActivity] and [lastActivity] no later than the clock, and no
    completion record shows a negative number of minutes. *)
Theorem forward_time_in_order (w : World) :
  forward w →
  map_Forall (λ _ s, createdAt s ≤ lastActivity s ≤ clock w) (sessions w)
  ∧ Forall sound_line (console w).
Proof.
  induction 1 as [now net|w now net message Hreach [IHs IHc] Hnow
                 |w now Hreach [IHs IHc] Hnow].
  - split; [|done]. intros u s Hs. simpl in Hs. by rewrite lookup_empty in Hs.
  - rewrite turn_clock. simpl.
    pose proof (transition_in_order now message (sessions w !! from message)) as [He Hp].
    { intros s Hs. specialize (IHs _ _ Hs). simpl in IHs. lia. }
    split.
    + intros u s Hs. rewrite turn_sessions in Hs. simpl in Hs.
      apply store_put_lookup in Hs as [[_ Hnew]|[_ Hold]].
      * apply (He s Hnew).
      * specialize (IHs _ _ Hold). simpl in IHs. lia.
    + destruct (turn_console message (with_deliveries net (at_time now w)))
        as (errors & -> & Herrors). simpl.
      rewrite !Forall_app. by repeat split.
  - unfold world_after. rewrite cleanupExpiredSessions_run. simpl. split; [|done].
    intros u s Hs. apply map_lookup_filter_Some in Hs as [Hs _].
    specialize (IHs _ _ Hs). simpl in IHs. lia.
Qed.

Lemma forward_time_in_order_witness :
  let w1 := world_after (handleIncomingMessage (text_message "491" "hi"))
              (with_deliveries [] (at_time 10 (initial 0 []))) in
  let w2 := world_after cleanupExpiredSessions (at_time 20 w1) in
  map_Forall (λ _ s, createdAt s ≤ lastActivity s ≤ 20) (sessions w2).
Proof.
  intros w1 w2.
  refine (proj1 (forward_time_in_order w2 _)).
  apply forward_sweep; [apply forward_turn; [apply forward_initial|]|].
  - simpl. lia.
  - vm_compute. discriminate.
Defined.

Lemma accepted_with message w e reply printed :
  transition (clock w) message (sessions w !! from message) = (e, reply, printed) →
  deliveries w = [] →
  world_after (handleIncomingMessage message) w
  = mkWorld (store_put (from message) e (sessions w)) (clock w)
      (console w ++ printed) (outbox w ++ [(from message, reply)]) [].
Proof.
  intros Htr Hnet. unfold world_after.
  rewrite turn_accepted by (unfold next_send_ok; by rewrite Hnet).
  unfold sent, reply_of, before_reply. rewrite Htr. simpl. by rewrite Hnet.
Qed.

Lemma is_trigger_text_message userPhone body :
  is_trigger (text_message userPhone body)
  = bool_decide (JsString.trim (JsString.toLowerCase body) = "hi").
Proof. reflexivity. Qed.

(** X21.  The whole flow.  From any world with a sender that accepts, the
    trigger, then a text, a second text and an image from the same user,
    no two of them more than 12 hours apart and neither text being the
    trigger, leave no session for the user (the other users as they
    were); the four replies are the greeting, the acknowledgment with
    the trimmed first text, the request for a photo and the completion
    text with that name; and one record is printed: the first text as
    name, the second as feedback, the id of the image, and the minutes
    from the trigger to the image. *)
Theorem whole_flow (userPhone hi nameText feedbackText imageId : string)
    (t0 t1 t2 t3 : Z) (w : World) :
  JsString.trim (JsString.toLowerCase hi) = "hi" →
  JsString.trim (JsString.toLowerCase nameText) ≠ "hi" →
  JsString.trim (JsString.toLowerCase feedbackText) ≠ "hi" →
  t1 - t0 ≤ 12 * 60 * 60 * 1000 →
  t2 - t1 ≤ 12 * 60 * 60 * 1000 →
  t3 - t2 ≤ 12 * 60 * 60 * 1000 →
  deliveries w = [] →
  let w1 := world_after (handleIncomingMessage (text_message userPhone hi)) (at_time t0 w) in
  let w2 := world_after (handleIncomingMessage (text_message userPhone nameText))
              (at_time t1 w1) in
  let w3 := world_after (handleIncomingMessage (text_message userPhone feedbackText))
              (at_time t2 w2) in
  let w4 := world_after (handleIncomingMessage (image_message userPhone imageId))
              (at_time t3 w3) in
  sessions w4 = delete userPhone (sessions w)
  ∧ outbox w4 = outbox w ++
      [(userPhone, greeting);
       (userPhone, nameReceived (JsString.trim nameText));
       (userPhone, feedbackReceived);
       (userPhone, completed (JsString.trim nameText))]
  ∧ console w4 = console w ++
      [LogFeedbackCompleted
         (FeedbackData.mk t3 userPhone (JsString.trim nameText)
            (JsString.trim feedbackText) imageId
            (Math_round_div (t3 - t0) (1000 * 60)) t3)].
Proof.
  intros Hhi Hname Hfeedback H01 H12 H23 Hnet w1 w2 w3 w4.
  assert (Hw1 : w1 = mkWorld (<[userPhone := fresh t0]> (sessions w)) t0
                       (console w ++ []) (outbox w ++ [(userPhone, greeting)]) []).
  { apply (accepted_with (text_message userPhone hi) (at_time t0 w)
             (Some (fresh t0)) greeting []); [|done].
    unfold transition. rewrite is_trigger_text_message.
    by rewrite bool_decide_eq_true_2. }
  assert (Hw2 : w2 = mkWorld
                  (<[userPhone := mkSession 2 (JsString.trim nameText) "" "" t0 t1]>
                     (sessions w1)) t1
                  (console w1 ++ [])
                  (outbox w1 ++ [(userPhone, nameReceived (JsString.trim nameText))]) []).
  { apply (accepted_with (text_message userPhone nameText) (at_time t1 w1)
             (Some (mkSession 2 (JsString.trim nameText) "" "" t0 t1))
             (nameReceived (JsString.trim nameText)) []); [|by rewrite Hw1].
    unfold transition, current. rewrite is_trigger_text_message.
    rewrite bool_decide_eq_false_2 by done. rewrite Hw1. simpl.
    rewrite lookup_insert_eq.
    assert (expired_at t1 (fresh t0) = false) as ->
      by (apply bool_decide_eq_false; unfold sessionTimeout; simpl; lia).
    reflexivity. }
  assert (Hw3 : w3 = mkWorld
                  (<[userPhone := mkSession 3 (JsString.trim nameText)
                                    (JsString.trim feedbackText) "" t0 t2]>
                     (sessions w2)) t2
                  (console w2 ++ [])
                  (outbox w2 ++ [(userPhone, feedbackReceived)]) []).
  { apply (accepted_with (text_message userPhone feedbackText) (at_time t2 w2)
             (Some (mkSession 3 (JsString.trim nameText) (JsString.trim feedbackText)
                      "" t0 t2))
             feedbackReceived []); [|by rewrite Hw2].
    unfold transition, current. rewrite is_trigger_text_message.
    rewrite bool_decide_eq_false_2 by done. rewrite Hw2. simpl.
    rewrite lookup_insert_eq.
    assert (expired_at t2 (mkSession 2 (JsString.trim nameText) "" "" t0 t1) = false) as ->
      by (apply bool_decide_eq_false; unfold sessionTimeout; simpl; lia).
    reflexivity. }
  assert (Hw4 : w4 = mkWorld (delete userPhone (sessions w3)) t3
                  (console w3 ++
                     [LogFeedbackCompleted
                        (FeedbackData.mk t3 userPhone (JsString.trim nameText)
                           (JsString.trim feedbackText) imageId
                           (Math_round_div (t3 - t0) (1000 * 60)) t3)])
                  (outbox w3 ++ [(userPhone, completed (JsString.trim nameText))]) []).
  { apply (accepted_with (image_message userPhone imageId) (at_time t3 w3) None
             (completed (JsString.trim nameText))
             [LogFeedbackCompleted
                (FeedbackData.mk t3 userPhone (JsString.trim nameText)
                   (JsString.trim feedbackText) imageId
                   (Math_round_div (t3 - t0) (1000 * 60)) t3)]); [|by rewrite Hw3].
    unfold transition, current.
    change (is_trigger (image_message userPhone imageId)) with false.
    rewrite Hw3. simpl. rewrite lookup_insert_eq.
    assert (expired_at t3 (mkSession 3 (JsString.trim nameText)
                             (JsString.trim feedbackText) "" t0 t2) = false) as ->
      by (apply bool_decide_eq_false; unfold sessionTimeout; simpl; lia).
    reflexivity. }
  rewrite Hw4, Hw3, Hw2, Hw1. simpl.
  rewrite !app_nil_r, <- !app_assoc. simpl.
  split; [|by split].
  apply map_eq. intros k. destruct (decide (k = userPhone)) as [->|Hk].
  - by rewrite !lookup_delete_eq.
  - by rewrite !lookup_delete_ne, !lookup_insert_ne.
Qed.

Lemma whole_flow_witness :
  let w1 := world_after (handleIncomingMessage (text_message "491" "hi")) (at_time 0 (initial 0 [])) in
  let w2 := world_after (handleIncomingMessage (text_message "491" "Alice")) (at_time 1000 w1) in
  let w3 := world_after (handleIncomingMessage (text_message "491" "Great service"))
              (at_time 2000 w2) in
  let w4 := world_after (handleIncomingMessage (image_message "491" "img-42"))
              (at_time 90000 w3) in
  console w4 = [LogFeedbackCompleted
                  (FeedbackData.mk 90000 "491" "Alice" "Great service" "img-42" 2 90000)].
Proof.
  intros w1 w2 w3 w4.
  destruct (whole_flow "491" "hi" "Alice" "Great service" "img-42" 0 1000 2000 90000
              (initial 0 [])) as (_ & _ & Hcon).
  - reflexivity.
  - vm_compute. discriminate.
  - vm_compute. discriminate.
  - vm_compute. discriminate.
  - vm_compute. discriminate.
  - vm_compute. discriminate.
  - reflexivity.
  - exact Hcon.
Defined.

(** ** The trigger *)

Lemma lowerChar_white c : JsString.isWhiteSpace c = true → JsString.lowerChar c = c.
Proof.
  destruct c as [b0 b1 b2 b3 b4 b5 b6 b7].
  destruct b0, b1, b2, b3, b4, b5, b6, b7; vm_compute; (reflexivity || discriminate).
Qed.

Lemma toLowerCase_app s1 s2 :
  JsString.toLowerCase (s1 ++ s2)%string
  = (JsString.toLowerCase s1 ++ JsString.toLowerCase s2)%string.
Proof. induction s1 as [|c s1 IH]; simpl; [done|]. by rewrite IH. Qed.

Lemma toLowerCase_white s : all_white s = true → JsString.toLowerCase s = s.
Proof.
  induction s as [|c s IH]; simpl; [done|].
  intros [Hc Hs]%andb_true_iff. by rewrite lowerChar_white, IH.
Qed.

Lemma trimStart_white pre s :
  all_white pre = true → JsString.trimStart (pre ++ s)%string = JsString.trimStart s.
Proof.
  induction pre as [|c pre IH]; simpl; [done|].
  intros [Hc Hpre]%andb_true_iff. rewrite Hc. by apply IH.
Qed.

Lemma trimEnd_white post : all_white post = true → JsString.trimEnd post = "".
Proof.
  induction post as [|c post IH]; simpl; [done|].
  intros [Hc Hpost]%andb_true_iff. by rewrite IH, Hc.
Qed.

Lemma trimEnd_app_white s post :
  all_white post = true → JsString.trimEnd (s ++ post)%string = JsString.trimEnd s.
Proof.
  intros Hpost. induction s as [|c s IH]; simpl.
  - by apply trimEnd_white.
  - by rewrite IH.
Qed.

(** X22.  The trigger is found whatever the case of its two letters and
    whatever white space stands before and after them. *)
Theorem trigger_any_case (userPhone pre word post : string) :
  all_white pre = true →
  all_white post = true →
  word ∈ ["hi"; "Hi"; "hI"; "HI"] →
  is_trigger (text_message userPhone (pre ++ word ++ post)%string) = true.
Proof.
  intros Hpre Hpost Hword.
  rewrite is_trigger_text_message. apply bool_decide_eq_true.
  rewrite !toLowerCase_app, (toLowerCase_white pre), (toLowerCase_white post) by done.
  unfold JsString.trim. rewrite trimStart_white by done.
  assert (JsString.toLowerCase word = "hi") as ->.
  { repeat (apply elem_of_cons in Hword as [->|Hword]; [reflexivity|]).
    by apply elem_of_nil in Hword. }
  change (JsString.trimStart ("hi" ++ post)%string) with ("hi" ++ post)%string.
  by rewrite trimEnd_app_white.
Qed.

Lemma trigger_any_case_witness :
  is_trigger (text_message "491" (" " ++ "HI" ++ "  ")%string) = true.
Proof.
  apply (trigger_any_case "491" " " "HI" "  ").
  - reflexivity.
  - reflexivity.
  - apply list_elem_of_In. simpl. tauto.
Defined.
